(** * Byte-pattern scanning engine (PatternScanning.hpp / PatternScanning.cpp)

    A shallow embedding of the pattern representation, the brute-force and
    Boyer-Moore scanners, the fuzzy scanner and the pattern-string helpers,
    followed by the properties established about them.

    Conventions of the embedding.
    - [uint8_t] values, [int] values and [size_t]/[uintptr_t] values are
      integers of [Z].  [baseAddress + offset] and [shift += ...] are sums of
      64-bit unsigned words and their wrap-around is written out with
      [wrap64]; a [static_cast<uint8_t>] is a reduction modulo 256.  The [int]
      counters ([matches], [totalChecks], [byteFreq]) stay in range as long as
      patterns and buffers hold fewer than [2^31] elements.
    - [float] and [double] values are [spec_float] of the standard library,
      at binary32 and binary64 precision.
    - A [const uint8_t*] argument is [option (list Z)]: [None] is the null
      pointer, [Some d] points at the readable bytes [d].  The [size]
      argument is passed separately, as in the code.
    - A subscript of a vector or buffer is the checked [at_index]; a
      function returns [None] when a subscript leaves its container (or when
      a [while] loop exhausts the fuel it was given).  The one exception is
      the construction of the good-suffix table, see [GoodSuffix]. *)

From Stdlib Require Import String Ascii ZArith List Bool Lia SpecFloat.
From Stdlib Require Import Sorted.
Import ListNotations.
Open Scope Z_scope.

(** ** Machine words, checked subscripts *)

Definition wrap64 (z : Z) : Z := z mod 2 ^ 64.

Definition at_index {A : Type} (v : list A) (i : Z) : option A :=
  if i <? 0 then None else nth_error v (Z.to_nat i).

Fixpoint list_set {A : Type} (v : list A) (n : nat) (x : A) : list A :=
  match v, n with
  | [], _ => []
  | _ :: t, O => x :: t
  | h :: t, S n' => h :: list_set t n' x
  end.

Definition set_index {A : Type} (v : list A) (i : Z) (x : A) : option (list A) :=
  if (0 <=? i) && (i <? Z.of_nat (length v)) then Some (list_set v (Z.to_nat i) x)
  else None.

Notation "'let?' x ':=' e 'in' k" :=
  (match e with Some x => k | None => None end)
  (at level 10, x pattern, e at level 100, k at level 200).

(** ** Pattern *)

Record Pattern : Type := mkPattern {
  bytes : list Z;
  mask : list bool   (* true = must match, false = wildcard *)
}.

Definition Size (p : Pattern) : Z := Z.of_nat (length (bytes p)).

Definition IsValid (p : Pattern) : bool :=
  negb (Nat.eqb (length (bytes p)) 0)
  && Nat.eqb (length (bytes p)) (length (mask p)).

Definition Pattern_empty : Pattern := mkPattern [] [].

(** [Pattern(const std::vector<uint8_t>&, const std::vector<bool>&)] *)
Definition Pattern_of_vectors (bs : list Z) (ms : list bool) : Pattern :=
  if Nat.eqb (length bs) (length ms) then mkPattern bs ms else Pattern_empty.

(** ** ScanResult *)

Record ScanResult : Type := mkScanResult {
  address : Z;
  offset : Z;
  found : bool
}.

Definition ScanResult_none : ScanResult := mkScanResult 0 0 false.
Definition ScanResult_at (addr off : Z) : ScanResult := mkScanResult addr off true.

(** ** SimpleScanner *)

Module SimpleScanner.

(** The [for] loop of [MatchesPattern], entered at index [i] with [n]
    iterations left. *)
Fixpoint MatchesPattern_loop (n : nat) (pattern : Pattern) (data : list Z)
    (offset i : Z) : option bool :=
  match n with
  | O => Some true
  | S n' =>
      let? m := at_index (mask pattern) i in
      if m then
        let? d := at_index data (offset + i) in
        let? b := at_index (bytes pattern) i in
        if negb (d =? b) then Some false
        else MatchesPattern_loop n' pattern data offset (i + 1)
      else MatchesPattern_loop n' pattern data offset (i + 1)
  end.

Definition MatchesPattern (pattern : Pattern) (data : list Z) (offset : Z)
    : option bool :=
  MatchesPattern_loop (Z.to_nat (Size pattern)) pattern data offset 0.

(** The [for (i = 0; i <= size - pattern.Size(); ++i)] loop of [Scan] with
    [n] iterations left. *)
Fixpoint Scan_loop (n : nat) (pattern : Pattern) (data : list Z)
    (baseAddress i : Z) : option ScanResult :=
  match n with
  | O => Some ScanResult_none
  | S n' =>
      let? hit := MatchesPattern pattern data i in
      if hit then Some (ScanResult_at (wrap64 (baseAddress + i)) i)
      else Scan_loop n' pattern data baseAddress (i + 1)
  end.

Definition Scan (pattern : Pattern) (data : option (list Z))
    (size baseAddress : Z) : option ScanResult :=
  if negb (IsValid pattern) then Some ScanResult_none
  else match data with
       | None => Some ScanResult_none
       | Some d =>
           if size <? Size pattern then Some ScanResult_none
           else Scan_loop (Z.to_nat (size - Size pattern + 1)) pattern d
                  baseAddress 0
       end.

Fixpoint ScanAll_loop (n : nat) (pattern : Pattern) (data : list Z)
    (baseAddress i : Z) (results : list ScanResult) : option (list ScanResult) :=
  match n with
  | O => Some results
  | S n' =>
      let? hit := MatchesPattern pattern data i in
      ScanAll_loop n' pattern data baseAddress (i + 1)
        (if hit then results ++ [ScanResult_at (wrap64 (baseAddress + i)) i]
         else results)
  end.

Definition ScanAll (pattern : Pattern) (data : option (list Z))
    (size baseAddress : Z) : option (list ScanResult) :=
  if negb (IsValid pattern) then Some []
  else match data with
       | None => Some []
       | Some d =>
           if size <? Size pattern then Some []
           else ScanAll_loop (Z.to_nat (size - Size pattern + 1)) pattern d
                  baseAddress 0 []
       end.

End SimpleScanner.

(** ** BoyerMooreScanner *)

(** Construction of the good-suffix table.

    [goodSuffixTable_] is resized to [patternLength] ints.  While the table
    is built its storage is modelled together with the one int that lies
    directly behind it in memory ([gs_mem] has [patternLength + 1] cells, the
    last one holding that word), and every subscript applied to
    [goodSuffixTable_] is recorded in [gs_touched]: a subscript equal to
    [patternLength] lands on the extra cell instead of stopping the run, so
    that the construction can be followed to its end and the table the
    scanners later read is the first [patternLength] cells.  The pattern
    and [borderTable] are read with a default value; the subscripts applied
    to them stay in range in every run. *)
Module GoodSuffix.

Record State : Type := mkState {
  gs_mem : list Z;
  borderTable : list Z;
  gs_touched : list Z
}.

Definition touch (k : Z) (st : State) : State :=
  mkState (gs_mem st) (borderTable st) (k :: gs_touched st).

Definition gs_get (st : State) (k : Z) : Z := nth (Z.to_nat k) (gs_mem st) 0.

Definition gs_set (st : State) (k v : Z) : State :=
  mkState (list_set (gs_mem st) (Z.to_nat k) v) (borderTable st) (gs_touched st).

Definition border_get (st : State) (k : Z) : Z :=
  nth (Z.to_nat k) (borderTable st) 0.

Definition border_set (st : State) (k v : Z) : State :=
  mkState (gs_mem st) (list_set (borderTable st) (Z.to_nat k) v) (gs_touched st).

(** [if (goodSuffixTable_[k] == patternLength) goodSuffixTable_[k] = v;] *)
Definition fill_if_unset (st : State) (patternLength k v : Z) : State :=
  let st1 := touch k st in
  if gs_get st1 k =? patternLength then gs_set (touch k st1) k v else st1.

Definition mask_at (p : Pattern) (k : Z) : bool := nth (Z.to_nat k) (mask p) false.
Definition byte_at (p : Pattern) (k : Z) : Z := nth (Z.to_nat k) (bytes p) 0.

(** Guard of the inner [while] of the border computation. *)
Definition border_guard (p : Pattern) (patternLength i j : Z) : bool :=
  (j <=? patternLength)
  && ((j =? patternLength)
      || negb (mask_at p (i - 1)) || negb (mask_at p (j - 1))
      || negb (byte_at p (i - 1) =? byte_at p (j - 1))).

Fixpoint border_inner (fuel : nat) (p : Pattern) (patternLength i j : Z)
    (st : State) : option (Z * State) :=
  if border_guard p patternLength i j then
    match fuel with
    | O => None
    | S fuel' =>
        let st1 := fill_if_unset st patternLength (j - 1) (j - i) in
        border_inner fuel' p patternLength i (border_get st1 j) st1
    end
  else Some (j, st).

(** The outer [while (i > 0)]; each round runs the inner loop with
    [inner_fuel]. *)
Fixpoint border_outer (fuel inner_fuel : nat) (p : Pattern)
    (patternLength i j : Z) (st : State) : option State :=
  if i >? 0 then
    match fuel with
    | O => None
    | S fuel' =>
        let? (j1, st1) := border_inner inner_fuel p patternLength i j st in
        let i' := i - 1 in
        let j' := j1 - 1 in
        border_outer fuel' inner_fuel p patternLength i' j' (border_set st1 i' j')
    end
  else Some st.

(** [for (i = 0; i <= patternLength; i++)], [n] iterations left. *)
Fixpoint complete_loop (n : nat) (patternLength i j : Z) (st : State) : State :=
  match n with
  | O => st
  | S n' =>
      let st1 := fill_if_unset st patternLength i j in
      let j' := if i =? j then border_get st1 j else j in
      complete_loop n' patternLength (i + 1) j' st1
  end.

(** [behind] is the int stored directly after the vector's last element. *)
Definition BuildGoodSuffixTable (behind : Z) (p : Pattern) : option State :=
  let patternLength := Size p in
  let n := Z.to_nat patternLength in
  let st0 := mkState (repeat patternLength n ++ [behind]) (repeat 0 (S n)) [] in
  let i := patternLength in
  let j := patternLength + 1 in
  let st1 := border_set st0 i j in
  let? st2 := border_outer (S n) (S (S n)) p patternLength i j st1 in
  Some (complete_loop (S n) patternLength 0 (border_get st2 0) st2).

(** The vector itself: the cells the scanner owns. *)
Definition table (patternLength : Z) (st : State) : list Z :=
  firstn (Z.to_nat patternLength) (gs_mem st).

End GoodSuffix.

Module BoyerMooreScanner.

Record t : Type := mkScanner {
  pattern_ : Pattern;
  badCharTable_ : list Z;
  goodSuffixTable_ : list Z
}.

(** [for (i = 0; i < pattern_.Size() - 1; ++i)] entered at [i], [n] rounds left. *)
Fixpoint BuildBadCharTable_loop (n : nat) (p : Pattern) (i : Z) (tbl : list Z)
    : option (list Z) :=
  match n with
  | O => Some tbl
  | S n' =>
      let? m := at_index (mask p) i in
      if m then
        let? b := at_index (bytes p) i in
        let? tbl' := set_index tbl b (Size p - 1 - i) in
        BuildBadCharTable_loop n' p (i + 1) tbl'
      else BuildBadCharTable_loop n' p (i + 1) tbl
  end.

Definition BuildBadCharTable (p : Pattern) : option (list Z) :=
  BuildBadCharTable_loop (Z.to_nat (Size p - 1)) p 0 (repeat (Size p) 256).

Definition make (behind : Z) (pattern : Pattern) : option t :=
  if IsValid pattern then
    let? bad := BuildBadCharTable pattern in
    let? st := GoodSuffix.BuildGoodSuffixTable behind pattern in
    Some (mkScanner pattern bad (GoodSuffix.table (Size pattern) st))
  else Some (mkScanner pattern [] []).

(** Right-to-left comparison: [j] starts at [n - 1]; the result is the [j]
    the inner [while] stops at ([-1] after a full match). *)
Fixpoint compare_right_to_left (n : nat) (p : Pattern) (data : list Z)
    (shift : Z) : option Z :=
  match n with
  | O => Some (-1)
  | S n' =>
      let j := Z.of_nat n' in
      let? m := at_index (mask p) j in
      if negb m then compare_right_to_left n' p data shift
      else
        let? b := at_index (bytes p) j in
        let? d := at_index data (shift + j) in
        if b =? d then compare_right_to_left n' p data shift else Some j
  end.

(** The shift taken after a mismatch at [j]. *)
Definition mismatch_shift (sc : t) (data : list Z) (shift j : Z) : option Z :=
  let patternLength := Size (pattern_ sc) in
  let? d := at_index data (shift + j) in
  let? bc := at_index (badCharTable_ sc) d in
  let badCharShift := bc - patternLength + 1 + j in
  let? goodSuffixShift := at_index (goodSuffixTable_ sc) j in
  Some (if badCharShift >? goodSuffixShift then badCharShift else goodSuffixShift).

Fixpoint Scan_loop (fuel : nat) (sc : t) (data : list Z)
    (textLength baseAddress shift : Z) : option ScanResult :=
  let patternLength := Size (pattern_ sc) in
  if shift <=? textLength - patternLength then
    match fuel with
    | O => None
    | S fuel' =>
        let? j := compare_right_to_left (Z.to_nat patternLength) (pattern_ sc)
                    data shift in
        if j <? 0 then Some (ScanResult_at (wrap64 (baseAddress + shift)) shift)
        else
          let? s := mismatch_shift sc data shift j in
          Scan_loop fuel' sc data textLength baseAddress (wrap64 (shift + s))
    end
  else Some ScanResult_none.

Definition Scan (sc : t) (data : option (list Z)) (size baseAddress : Z)
    : option ScanResult :=
  if negb (IsValid (pattern_ sc)) then Some ScanResult_none
  else match data with
       | None => Some ScanResult_none
       | Some d =>
           if size <? Size (pattern_ sc) then Some ScanResult_none
           else Scan_loop (S (Z.to_nat size)) sc d size baseAddress 0
       end.

Fixpoint ScanAll_loop (fuel : nat) (sc : t) (data : list Z)
    (textLength baseAddress shift : Z) (results : list ScanResult)
    : option (list ScanResult) :=
  let patternLength := Size (pattern_ sc) in
  if shift <=? textLength - patternLength then
    match fuel with
    | O => None
    | S fuel' =>
        let? j := compare_right_to_left (Z.to_nat patternLength) (pattern_ sc)
                    data shift in
        if j <? 0 then
          let results' :=
            results ++ [ScanResult_at (wrap64 (baseAddress + shift)) shift] in
          let? s := (if shift + patternLength <? textLength
                     then at_index (goodSuffixTable_ sc) 0 else Some 1) in
          ScanAll_loop fuel' sc data textLength baseAddress (wrap64 (shift + s))
            results'
        else
          let? s := mismatch_shift sc data shift j in
          ScanAll_loop fuel' sc data textLength baseAddress (wrap64 (shift + s))
            results
    end
  else Some results.

Definition ScanAll (sc : t) (data : option (list Z)) (size baseAddress : Z)
    : option (list ScanResult) :=
  if negb (IsValid (pattern_ sc)) then Some []
  else match data with
       | None => Some []
       | Some d =>
           if size <? Size (pattern_ sc) then Some []
           else ScanAll_loop (S (Z.to_nat size)) sc d size baseAddress 0 []
       end.

End BoyerMooreScanner.

(** ** SIMDScanner::FastScan *)

Module SIMDScanner.

(** The inner [for (j = 0; j < bytes.size(); ++j)] with its [break]: the
    final value of [match]. *)
Fixpoint FastScan_compare (n : nat) (bytes data : list Z) (i j : Z)
    : option bool :=
  match n with
  | O => Some true
  | S n' =>
      let? d := at_index data (i + j) in
      let? b := at_index bytes j in
      if negb (d =? b) then Some false
      else FastScan_compare n' bytes data i (j + 1)
  end.

Fixpoint FastScan_loop (n : nat) (bytes data : list Z) (baseAddress i : Z)
    : option ScanResult :=
  match n with
  | O => Some ScanResult_none
  | S n' =>
      let? hit := FastScan_compare (length bytes) bytes data i 0 in
      if hit then Some (ScanResult_at (wrap64 (baseAddress + i)) i)
      else FastScan_loop n' bytes data baseAddress (i + 1)
  end.

Definition FastScan (bytes : list Z) (data : option (list Z))
    (size baseAddress : Z) : option ScanResult :=
  if Nat.eqb (length bytes) 0 then Some ScanResult_none
  else match data with
       | None => Some ScanResult_none
       | Some d =>
           if size <? Z.of_nat (length bytes) then Some ScanResult_none
           else FastScan_loop (Z.to_nat (size - Z.of_nat (length bytes) + 1))
                  bytes d baseAddress 0
       end.

End SIMDScanner.

(** ** Pattern strings *)

(** Width of [unsigned long], the result type of [std::stoul]: 64 bits under
    LP64 (GCC/Clang on Linux), 32 bits under LLP64 (MSVC and MinGW). *)
Inductive DataModel : Type := LP64 | LLP64.

Definition ULONG_MAX (dm : DataModel) : Z :=
  match dm with
  | LP64 => 2 ^ 64 - 1
  | LLP64 => 2 ^ 32 - 1
  end.

Definition code (c : ascii) : Z := Z.of_nat (nat_of_ascii c).

(** [std::isspace] in the "C" locale. *)
Definition isspace (c : ascii) : bool :=
  (code c =? 32) || ((9 <=? code c) && (code c <=? 13)).

Definition isdigit (c : ascii) : bool := (48 <=? code c) && (code c <=? 57).

Definition is_empty (s : string) : bool :=
  match s with
  | EmptyString => true
  | String _ _ => false
  end.

(** The token stream of [while (iss >> token)]: maximal runs of
    non-whitespace characters.  [cur] is the token being read. *)
Fixpoint read_tokens (s : string) (cur : string) : list string :=
  match s with
  | EmptyString => if is_empty cur then [] else [cur]
  | String c s' =>
      if isspace c then
        if is_empty cur then read_tokens s' EmptyString
        else cur :: read_tokens s' EmptyString
      else read_tokens s' (String.append cur (String c EmptyString))
  end.

Definition tokens (s : string) : list string := read_tokens s EmptyString.

Definition hex_value (c : ascii) : option Z :=
  if isdigit c then Some (code c - 48)
  else if (65 <=? code c) && (code c <=? 70) then Some (code c - 55)
  else if (97 <=? code c) && (code c <=? 102) then Some (code c - 87)
  else None.

(** Value of the longest run of hex digits at the head of [s]; [None] when
    that run is empty. *)
Fixpoint hex_run (s : string) (acc : Z) (seen : bool) : option Z :=
  match s with
  | EmptyString => if seen then Some acc else None
  | String c s' =>
      match hex_value c with
      | Some d => hex_run s' (acc * 16 + d) true
      | None => if seen then Some acc else None
      end
  end.

Fixpoint skip_spaces (s : string) : string :=
  match s with
  | String c s' => if isspace c then skip_spaces s' else s
  | EmptyString => s
  end.

Definition starts_with_hex_digit (s : string) : bool :=
  match s with
  | String c _ => match hex_value c with Some _ => true | None => false end
  | EmptyString => false
  end.

(** [std::stoul(token, nullptr, 16)], that is [strtoul] with base 16:
    leading white space, an optional sign, an optional [0x]/[0X] prefix, then
    the longest run of hex digits; what follows the run is ignored.  [None]
    stands for the exception thrown: [std::invalid_argument] when no digit is
    converted, [std::out_of_range] when the value exceeds [ULONG_MAX].  A
    minus sign negates the value in [unsigned long]. *)
Definition stoul16 (dm : DataModel) (token : string) : option Z :=
  let s1 := skip_spaces token in
  let '(negative, s2) :=
    match s1 with
    | String c r =>
        if code c =? 45 then (true, r)
        else if code c =? 43 then (false, r)
        else (false, s1)
    | EmptyString => (false, s1)
    end in
  let s3 :=
    match s2 with
    | String z (String x r) =>
        if (code z =? 48) && ((code x =? 120) || (code x =? 88))
           && starts_with_hex_digit r
        then r else s2
    | _ => s2
    end in
  let? v := hex_run s3 0 false in
  if v >? ULONG_MAX dm then None
  else Some (if negative then (- v) mod (ULONG_MAX dm + 1) else v).

Definition is_wildcard (token : string) : bool :=
  String.eqb token "?" || String.eqb token "??".

(** Body of the [while (iss >> token)] loop of the string constructor, over
    the tokens still to be read; [p] holds [bytes] and [mask] so far. *)
Fixpoint Pattern_read (dm : DataModel) (ts : list string) (p : Pattern) : Pattern :=
  match ts with
  | [] => p
  | token :: ts' =>
      if is_wildcard token then
        Pattern_read dm ts' (mkPattern (bytes p ++ [0]) (mask p ++ [false]))
      else
        match stoul16 dm token with
        | Some v =>
            Pattern_read dm ts' (mkPattern (bytes p ++ [v mod 256]) (mask p ++ [true]))
        | None => Pattern_empty
        end
  end.

(** [Pattern::Pattern(const std::string&)] *)
Definition Pattern_of_string (dm : DataModel) (pattern : string) : Pattern :=
  Pattern_read dm (tokens pattern) Pattern_empty.

Module PatternUtils.

Fixpoint string_forallb (f : ascii -> bool) (s : string) : bool :=
  match s with
  | EmptyString => true
  | String c s' => f c && string_forallb f s'
  end.

Definition is_hex_char (c : ascii) : bool :=
  isdigit c || ((65 <=? code c) && (code c <=? 70))
  || ((97 <=? code c) && (code c <=? 102)).

Fixpoint IsValidPatternString_loop (dm : DataModel) (ts : list string) : bool :=
  match ts with
  | [] => true
  | token :: ts' =>
      if is_wildcard token then IsValidPatternString_loop dm ts'
      else
        let len := Z.of_nat (String.length token) in
        if (len =? 0) || (len >? 3) then false
        else if negb (string_forallb is_hex_char token) then false
        else
          match stoul16 dm token with
          | Some value =>
              if value >? 255 then false else IsValidPatternString_loop dm ts'
          | None => false
          end
  end.

Definition IsValidPatternString (dm : DataModel) (pattern : string) : bool :=
  if is_empty pattern then false
  else IsValidPatternString_loop dm (tokens pattern).

(** [snprintf(hex, sizeof(hex), "%02X", byte)] for a [uint8_t]: two
    upper-case hex digits. *)
Definition hex_digit_char (n : Z) : ascii :=
  ascii_of_nat (Z.to_nat (if n <? 10 then 48 + n else 55 + n)).

Definition hex2 (b : Z) : string :=
  String (hex_digit_char ((b / 16) mod 16))
    (String (hex_digit_char (b mod 16)) EmptyString).

(** The [for] loop of [ToString], entered at index [i] with [n] rounds left
    and [result] built so far. *)
Fixpoint ToString_loop (n : nat) (pattern : Pattern) (i : Z) (result : string)
    : option string :=
  match n with
  | O => Some result
  | S n' =>
      let result1 := if i >? 0 then String.append result " " else result in
      let? m := at_index (mask pattern) i in
      if m then
        let? b := at_index (bytes pattern) i in
        ToString_loop n' pattern (i + 1) (String.append result1 (hex2 b))
      else ToString_loop n' pattern (i + 1) (String.append result1 "??")
  end.

Definition ToString (pattern : Pattern) : option string :=
  ToString_loop (Z.to_nat (Size pattern)) pattern 0 EmptyString.

(** [std::replace(first, last, old_value, new_value)] on a string. *)
Fixpoint replace_char (old_value new_value : ascii) (s : string) : string :=
  match s with
  | EmptyString => EmptyString
  | String c s' =>
      String (if Ascii.eqb c old_value then new_value else c)
        (replace_char old_value new_value s')
  end.

(** [normalized.replace(pos, 2, "?? ")] *)
Definition replace2 (normalized : string) (pos : nat) : string :=
  String.append (String.substring 0 pos normalized)
    (String.append "?? "
       (String.substring (pos + 2) (String.length normalized - (pos + 2))
          normalized)).

(** [while ((pos = normalized.find("? ", pos)) != npos)] of
    [FromIDAPattern]; [None] when the fuel runs out. *)
Fixpoint widen_wildcards (fuel : nat) (normalized : string) (pos : nat)
    : option string :=
  match String.index pos "? " normalized with
  | None => Some normalized
  | Some found_at =>
      match fuel with
      | O => None
      | S fuel' => widen_wildcards fuel' (replace2 normalized found_at) (found_at + 3)
      end
  end.

Definition FromIDAPattern (dm : DataModel) (idaPattern : string) : option Pattern :=
  let normalized := replace_char "?" " " idaPattern in
  let? normalized' := widen_wildcards (S (String.length normalized)) normalized 0 in
  Some (Pattern_of_string dm normalized').

Definition FromX64DbgPattern (dm : DataModel) (x64dbgPattern : string) : Pattern :=
  Pattern_of_string dm x64dbgPattern.

Definition CreateCodeCavePattern (nopCount : nat) : Pattern :=
  Pattern_of_vectors (repeat 144 nopCount) (repeat true nopCount).

End PatternUtils.

(** ** Advanced::FuzzyScan *)

Module Advanced.

(** [float] is IEEE binary32: 24 bits of precision, [emax = 128]. *)
Definition f32 : Type := spec_float.
Definition f32_zero : f32 := S754_zero false.
Definition f32_one : f32 := SFone 24 128.
Definition f32_of_int (z : Z) : f32 := binary_normalize 24 128 z 0 false.
Definition f32_div (x y : f32) : f32 := SFdiv 24 128 x y.
Definition f32_lt (x y : f32) : bool := SFltb x y.
Definition f32_le (x y : f32) : bool := SFleb x y.

Record FuzzyResult : Type := mkFuzzyResult {
  fz_address : Z;
  fz_offset : Z;
  similarity : f32;
  fz_found : bool
}.

Definition FuzzyResult_none : FuzzyResult := mkFuzzyResult 0 0 f32_zero false.
Definition FuzzyResult_at (addr off : Z) (sim : f32) : FuzzyResult :=
  mkFuzzyResult addr off sim true.

(** The inner [for (j = 0; j < pattern.Size(); ++j)] at offset [i]: the final
    [(matches, totalChecks)]. *)
Fixpoint count_loop (n : nat) (pattern : Pattern) (data : list Z) (i j : Z)
    (matches totalChecks : Z) : option (Z * Z) :=
  match n with
  | O => Some (matches, totalChecks)
  | S n' =>
      let? m := at_index (mask pattern) j in
      if m then
        let? d := at_index data (i + j) in
        let? b := at_index (bytes pattern) j in
        count_loop n' pattern data i (j + 1)
          (if d =? b then matches + 1 else matches) (totalChecks + 1)
      else count_loop n' pattern data i (j + 1) matches totalChecks
  end.

(** The similarity computed at offset [i]: [Some None] when
    [totalChecks == 0], in which case the code computes none. *)
Definition similarity_at (pattern : Pattern) (data : list Z) (i : Z)
    : option (option f32) :=
  let? (matches, totalChecks) :=
    count_loop (Z.to_nat (Size pattern)) pattern data i 0 0 0 in
  if totalChecks >? 0
  then Some (Some (f32_div (f32_of_int matches) (f32_of_int totalChecks)))
  else Some None.

(** The outer [for (i = 0; i <= size - pattern.Size(); ++i)], [n] rounds
    left, followed by the code after the loop. *)
Fixpoint FuzzyScan_loop (n : nat) (pattern : Pattern) (data : list Z)
    (threshold : f32) (baseAddress i : Z) (bestSimilarity : f32)
    (bestOffset : Z) : option FuzzyResult :=
  match n with
  | O =>
      if f32_lt f32_zero bestSimilarity
      then Some (FuzzyResult_at (wrap64 (baseAddress + bestOffset)) bestOffset
                   bestSimilarity)
      else Some FuzzyResult_none
  | S n' =>
      let? sim := similarity_at pattern data i in
      match sim with
      | Some s =>
          let better := f32_lt bestSimilarity s in
          let bestSimilarity' := if better then s else bestSimilarity in
          let bestOffset' := if better then i else bestOffset in
          if f32_le threshold s
          then Some (FuzzyResult_at (wrap64 (baseAddress + i)) i s)
          else FuzzyScan_loop n' pattern data threshold baseAddress (i + 1)
                 bestSimilarity' bestOffset'
      | None =>
          FuzzyScan_loop n' pattern data threshold baseAddress (i + 1)
            bestSimilarity bestOffset
      end
  end.

Definition FuzzyScan (pattern : Pattern) (data : option (list Z)) (size : Z)
    (threshold : f32) (baseAddress : Z) : option FuzzyResult :=
  if negb (IsValid pattern) then Some FuzzyResult_none
  else match data with
       | None => Some FuzzyResult_none
       | Some d =>
           if (size <? Size pattern) || f32_lt threshold f32_zero
              || f32_lt f32_one threshold
           then Some FuzzyResult_none
           else FuzzyScan_loop (Z.to_nat (size - Size pattern + 1)) pattern d
                  threshold baseAddress 0 f32_zero 0
       end.

(** *** AnalyzeMemory *)

(** [double] is IEEE binary64: 53 bits of precision, [emax = 1024]. *)
Definition f64 : Type := spec_float.
Definition f64_zero : f64 := S754_zero false.
Definition f64_of_int (z : Z) : f64 := binary_normalize 53 1024 z 0 false.
Definition f64_div (x y : f64) : f64 := SFdiv 53 1024 x y.
Definition f64_mul (x y : f64) : f64 := SFmul 53 1024 x y.
Definition f64_sub (x y : f64) : f64 := SFsub 53 1024 x y.

Record MemoryStats : Type := mkMemoryStats {
  totalSize : Z;
  executableSize : Z;
  writableSize : Z;
  mostCommonBytes : list Z;
  commonPatterns : list Pattern;
  entropy : f64
}.

(** [MemoryStats stats = {};] *)
Definition MemoryStats_zero : MemoryStats := mkMemoryStats 0 0 0 [] [] f64_zero.

Definition with_totalSize (stats : MemoryStats) (size : Z) : MemoryStats :=
  mkMemoryStats size (executableSize stats) (writableSize stats)
    (mostCommonBytes stats) (commonPatterns stats) (entropy stats).

Section AnalyzeMemory.

(** The two library routines the function calls: [std::log2] on [double],
    and [std::sort] with the comparator [a.second > b.second] (an unstable
    sort, so the order among equal counts is the library's). *)
Variable log2 : f64 -> f64.
Variable sort_by_count : list (Z * Z) -> list (Z * Z).

(** [for (i = 0; i < size; ++i) byteFreq[data[i]]++;] *)
Fixpoint count_frequencies (n : nat) (data : list Z) (i : Z) (byteFreq : list Z)
    : option (list Z) :=
  match n with
  | O => Some byteFreq
  | S n' =>
      let? b := at_index data i in
      let? f := at_index byteFreq b in
      let? byteFreq' := set_index byteFreq b (f + 1) in
      count_frequencies n' data (i + 1) byteFreq'
  end.

(** Body of [for (int freq : byteFreq)]. *)
Definition entropy_step (size : Z) (acc : f64) (freq : Z) : f64 :=
  if freq >? 0 then
    let p := f64_div (f64_of_int freq) (f64_of_int size) in
    f64_sub acc (f64_mul p (log2 p))
  else acc.

(** [for (int i = 0; i < 256; ++i)] collecting the bytes that occur. *)
Fixpoint collect_present (n : nat) (byteFreq : list Z) (i : Z)
    (sortedBytes : list (Z * Z)) : option (list (Z * Z)) :=
  match n with
  | O => Some sortedBytes
  | S n' =>
      let? f := at_index byteFreq i in
      collect_present n' byteFreq (i + 1)
        (if f >? 0 then sortedBytes ++ [(i mod 256, f)] else sortedBytes)
  end.

Definition AnalyzeMemory (data : option (list Z)) (size : Z) : option MemoryStats :=
  let stats := with_totalSize MemoryStats_zero size in
  match data with
  | None => Some stats
  | Some d =>
      if size =? 0 then Some stats
      else
        let? byteFreq := count_frequencies (Z.to_nat size) d 0 (repeat 0 256) in
        let e := fold_left (entropy_step size) byteFreq f64_zero in
        let? present := collect_present 256 byteFreq 0 [] in
        let sortedBytes := sort_by_count present in
        let maxElements :=
          if (length sortedBytes <? 10)%nat then length sortedBytes else 10%nat in
        Some (mkMemoryStats size (executableSize stats) (writableSize stats)
                (map fst (firstn maxElements sortedBytes))
                (commonPatterns stats) e)
  end.

End AnalyzeMemory.

End Advanced.

(** * Properties *)

(** ** Vocabulary of the statements *)

(** The masked match predicate at offset [i]: every must-match position of
    the pattern agrees with the buffer; wildcard positions are unconstrained. *)
Definition masked_match (p : Pattern) (d : list Z) (i : Z) : Prop :=
  forall j, 0 <= j < Size p ->
    nth (Z.to_nat j) (mask p) false = true ->
    nth (Z.to_nat (i + j)) d 0 = nth (Z.to_nat j) (bytes p) 0.

(** [i] is the smallest offset of [[0, size - Size p]] with a masked match. *)
Definition first_match (p : Pattern) (d : list Z) (size i : Z) : Prop :=
  0 <= i <= size - Size p
  /\ masked_match p d i
  /\ forall k, 0 <= k < i -> ~ masked_match p d k.

(** The buffer behind a non-null pointer holds at least [size] bytes. *)
Definition readable (data : option (list Z)) (size : Z) : Prop :=
  match data with
  | Some d => size <= Z.of_nat (length d)
  | None => True
  end.

(** The scenario of the demo program: [48 8B 05] first occurs at offset 3 of
    the 29-byte buffer loaded at [0x140001000]. *)
Definition demo_buffer : list Z :=
  [144; 144; 144; 72; 139; 5; 18; 52; 86; 120; 255; 255; 255; 255; 232;
   0; 0; 0; 0; 144; 144; 72; 139; 5; 171; 205; 239; 1; 195].

(** Memory of the good-suffix table (with the int behind it) after the
    border computation of a pattern of length [m]: the last entry holds 1,
    every other entry still holds [m]. *)
Definition mem_after (m behind : Z) : list Z :=
  list_set (repeat m (Z.to_nat m) ++ [behind]) (Z.to_nat (m - 1)) 1.

(** A token that denotes a byte: hex digits only, with a value in 0..255. *)
Definition hex_byte_token (token : string) : bool :=
  negb (is_empty token)
  && PatternUtils.string_forallb PatternUtils.is_hex_char token
  && match hex_run token 0 false with
     | Some v => v <=? 255
     | None => false
     end.

Definition well_formed_token (token : string) : bool :=
  is_wildcard token || hex_byte_token token.

(** The pattern has at least one must-match position. *)
Definition has_exact_position (p : Pattern) : bool :=
  existsb (fun b => b) (mask p).

(** Some offset of [[lo, hi)] has a similarity above zero. *)
Definition positive_similarity (p : Pattern) (d : list Z) (lo hi : Z) : Prop :=
  exists i s,
    lo <= i < hi
    /\ Advanced.similarity_at p d i = Some (Some s)
    /\ Advanced.f32_lt Advanced.f32_zero s = true.

(** The specification's statement about [FuzzyScan], at one input: [found]
    holds exactly when some viable offset has a similarity above zero. *)
Definition found_iff_positive_similarity (p : Pattern) (d : list Z) (size : Z)
    (threshold : Advanced.f32) (baseAddress : Z) : Prop :=
  forall r,
    Advanced.FuzzyScan p (Some d) size threshold baseAddress = Some r ->
    (Advanced.fz_found r = true <->
     positive_similarity p d 0 (size - Size p + 1)).

(** The specification's statement about [AnalyzeMemory], at one input:
    whatever [std::log2] and [std::sort] compute, the statistics returned are
    zeroed, [totalSize] included. *)
Definition zeroed_stats (data : option (list Z)) (size : Z) : Prop :=
  forall log2 sort_by_count r,
    Advanced.AnalyzeMemory log2 sort_by_count data size = Some r ->
    Advanced.totalSize r = 0
    /\ Advanced.entropy r = Advanced.f64_zero
    /\ Advanced.mostCommonBytes r = [].

(** A [uint8_t] value. *)
Definition is_byte (b : Z) : Prop := 0 <= b < 256.

(** A pattern as the string constructor builds them: as many mask entries
    as bytes, every byte a [uint8_t], and [00] under every wildcard. *)
Fixpoint canonical_entries (bs : list Z) (ms : list bool) : Prop :=
  match bs, ms with
  | [], [] => True
  | b :: bs', m :: ms' =>
      (if m then is_byte b else b = 0) /\ canonical_entries bs' ms'
  | _, _ => False
  end.

Definition canonical (p : Pattern) : Prop := canonical_entries (bytes p) (mask p).

(** What a scan reports about one hit of [p] in [d]: an offset of
    [[0, size - Size p]] at which the masked match holds, flagged as found,
    with the address taken from that offset. *)
Definition reported_hit (p : Pattern) (d : list Z) (size baseAddress : Z)
    (r : ScanResult) : Prop :=
  found r = true
  /\ 0 <= offset r <= size - Size p
  /\ masked_match p d (offset r)
  /\ address r = wrap64 (baseAddress + offset r).

(** The text [ToString] writes for one position. *)
Definition entry_token (b : Z) (m : bool) : string :=
  if m then PatternUtils.hex2 b else "??"%string.

Fixpoint pattern_tokens (bs : list Z) (ms : list bool) : list string :=
  match bs, ms with
  | b :: bs', m :: ms' => entry_token b m :: pattern_tokens bs' ms'
  | _, _ => []
  end.

(** Tokens written one after the other, each preceded by one blank. *)
Fixpoint spaced (ts : list string) : string :=
  match ts with
  | [] => EmptyString
  | t :: ts' => String " " (String.append t (spaced ts'))
  end.

Definition no_space (c : ascii) : bool := negb (isspace c).

(** What the round trip needs of the two characters written for a byte. *)
Definition hex2_reads_back (dm : DataModel) (b : Z) : bool :=
  negb (is_wildcard (PatternUtils.hex2 b))
  && match stoul16 dm (PatternUtils.hex2 b) with
     | Some v => v =? b
     | None => false
     end
  && PatternUtils.string_forallb no_space (PatternUtils.hex2 b)
  && PatternUtils.string_forallb PatternUtils.is_hex_char (PatternUtils.hex2 b).

(** The string holds no question mark. *)
Definition no_qmark (s : string) : bool :=
  PatternUtils.string_forallb (fun c => negb (Ascii.eqb c "?")) s.

(** A shift the Boyer-Moore scanner may take for a pattern of length [m]. *)
Definition shift_in_range (m x : Z) : Prop := 1 <= x <= m.

(** The two tables of a scanner have the sizes the constructor gives them
    and hold shifts of [[1, patternLength]] only. *)
Definition tables_in_range (sc : BoyerMooreScanner.t) : Prop :=
  let m := Size (BoyerMooreScanner.pattern_ sc) in
  length (BoyerMooreScanner.badCharTable_ sc) = 256%nat
  /\ Forall (shift_in_range m) (BoyerMooreScanner.badCharTable_ sc)
  /\ Z.of_nat (length (BoyerMooreScanner.goodSuffixTable_ sc)) = m
  /\ Forall (shift_in_range m) (BoyerMooreScanner.goodSuffixTable_ sc).

(** A fuzzy result that is flagged found, lies at a viable offset and
    carries the similarity computed at that offset. *)
Definition carries_own_similarity (p : Pattern) (d : list Z)
    (threshold : Advanced.f32) (size baseAddress : Z)
    (r : Advanced.FuzzyResult) : Prop :=
  Advanced.fz_found r = true
  /\ 0 <= Advanced.fz_offset r <= size - Size p
  /\ Advanced.similarity_at p d (Advanced.fz_offset r)
     = Some (Some (Advanced.similarity r))
  /\ Advanced.fz_address r = wrap64 (baseAddress + Advanced.fz_offset r)
  /\ (Advanced.f32_le threshold (Advanced.similarity r) = true
      \/ Advanced.f32_lt Advanced.f32_zero (Advanced.similarity r) = true).

(** The bytes [bs] stand in [d] at offset [i]. *)
Definition occurs_at (bs d : list Z) (i : Z) : Prop :=
  forall j, 0 <= j < Z.of_nat (length bs) ->
    nth (Z.to_nat (i + j)) d 0 = nth (Z.to_nat j) bs 0.

(** ** Subscripts and validity *)

Lemma at_index_nth {A : Type} (v : list A) (i : Z) (dflt : A) :
  0 <= i < Z.of_nat (length v) ->
  at_index v i = Some (nth (Z.to_nat i) v dflt).
Proof.
  intros Hi. unfold at_index.
  destruct (Z.ltb_spec i 0) as [Hneg | _]; [lia |].
  apply nth_error_nth'. lia.
Qed.

Lemma IsValid_true (p : Pattern) :
  IsValid p = true ->
  0 < Size p /\ length (mask p) = length (bytes p).
Proof.
  unfold IsValid, Size. intros H.
  apply andb_true_iff in H. destruct H as [Hne Heq].
  apply negb_true_iff, Nat.eqb_neq in Hne.
  apply Nat.eqb_eq in Heq. lia.
Qed.

(** ** SimpleScanner *)

Section SimpleScannerFacts.

Variable p : Pattern.
Variable d : list Z.
Hypothesis Hmask : length (mask p) = length (bytes p).

Lemma MatchesPattern_loop_spec (off : Z) :
  0 <= off -> off + Size p <= Z.of_nat (length d) ->
  forall (n : nat) (i : Z),
    0 <= i -> i + Z.of_nat n = Size p ->
    exists b,
      SimpleScanner.MatchesPattern_loop n p d off i = Some b
      /\ (b = true <->
          forall j, i <= j < Size p ->
            nth (Z.to_nat j) (mask p) false = true ->
            nth (Z.to_nat (off + j)) d 0 = nth (Z.to_nat j) (bytes p) 0).
Proof.
  intros Hoff Hfit. unfold Size in *.
  induction n as [| n IH]; intros i Hi Hn.
  - exists true. split; [reflexivity |].
    split; [intros _ j Hj; lia | reflexivity].
  - cbn [SimpleScanner.MatchesPattern_loop].
    rewrite (at_index_nth (mask p) i false) by lia.
    destruct (IH (i + 1)) as [b [Hb Hiff]]; [lia | lia |].
    destruct (nth (Z.to_nat i) (mask p) false) eqn:Hm.
    + rewrite (at_index_nth d (off + i) 0) by lia.
      rewrite (at_index_nth (bytes p) i 0) by lia.
      destruct (Z.eqb_spec (nth (Z.to_nat (off + i)) d 0)
                           (nth (Z.to_nat i) (bytes p) 0)) as [Heq | Hne];
        cbn [negb].
      * exists b. split; [exact Hb |]. rewrite Hiff.
        split; intros H j Hj Hmj.
        -- destruct (Z.eq_dec j i) as [-> | Hji]; [exact Heq |].
           apply H; [lia | exact Hmj].
        -- apply H; [lia | exact Hmj].
      * exists false. split; [reflexivity |].
        split; [discriminate |].
        intros H. exfalso. apply Hne. apply H; [lia | exact Hm].
    + exists b. split; [exact Hb |]. rewrite Hiff.
      split; intros H j Hj Hmj.
      * destruct (Z.eq_dec j i) as [-> | Hji]; [congruence |].
        apply H; [lia | exact Hmj].
      * apply H; [lia | exact Hmj].
Qed.

Lemma MatchesPattern_spec (off : Z) :
  0 <= off -> off + Size p <= Z.of_nat (length d) ->
  exists b,
    SimpleScanner.MatchesPattern p d off = Some b
    /\ (b = true <-> masked_match p d off).
Proof.
  intros Hoff Hfit. unfold SimpleScanner.MatchesPattern.
  destruct (MatchesPattern_loop_spec off Hoff Hfit (Z.to_nat (Size p)) 0)
    as [b [Hb Hiff]]; [lia | unfold Size; lia |].
  exists b. split; [exact Hb |]. rewrite Hiff. unfold masked_match.
  split; intros H j Hj; apply H; lia.
Qed.

Lemma SimpleScan_loop_spec (size base : Z) :
  size <= Z.of_nat (length d) ->
  forall (n : nat) (i : Z),
    0 <= i -> i + Z.of_nat n = size - Size p + 1 ->
    (exists k,
        i <= k <= size - Size p
        /\ masked_match p d k
        /\ (forall k', i <= k' < k -> ~ masked_match p d k')
        /\ SimpleScanner.Scan_loop n p d base i
           = Some (ScanResult_at (wrap64 (base + k)) k))
    \/ ((forall k, i <= k <= size - Size p -> ~ masked_match p d k)
        /\ SimpleScanner.Scan_loop n p d base i = Some ScanResult_none).
Proof.
  intros Hsize.
  induction n as [| n IH]; intros i Hi Hn.
  - right. split; [intros k Hk; lia | reflexivity].
  - cbn [SimpleScanner.Scan_loop].
    destruct (MatchesPattern_spec i) as [b [Hb Hiff]]; [lia | lia |].
    rewrite Hb. destruct b.
    + left. exists i.
      split; [lia |]. split; [apply Hiff; reflexivity |].
      split; [intros k' Hk'; lia | reflexivity].
    + assert (Hno : ~ masked_match p d i).
      { intros H. apply Hiff in H. discriminate. }
      destruct (IH (i + 1)) as [[k [Hk [Hmk [Hmin Hres]]]] | [Hnone Hres]];
        [lia | lia | |].
      * left. exists k.
        split; [lia |]. split; [exact Hmk |]. split; [| exact Hres].
        intros k' Hk'. destruct (Z.eq_dec k' i) as [-> | Hne]; [exact Hno |].
        apply Hmin. lia.
      * right. split; [| exact Hres].
        intros k Hk. destruct (Z.eq_dec k i) as [-> | Hne]; [exact Hno |].
        apply Hnone. lia.
Qed.

End SimpleScannerFacts.

(** C4. [SimpleScanner::Scan] never leaves its buffer and always returns a
    result.  For a valid pattern and a non-null buffer with
    [size >= pattern.Size()] it returns the smallest offset [i] of
    [[0, size - pattern.Size()]] at which every must-match position agrees
    with the buffer, with [found = true] and [address = baseAddress + i] (the
    sum of two [uintptr_t], hence taken modulo [2^64]); when there is no such
    offset, the pattern is invalid, the pointer is null or
    [size < pattern.Size()], it returns the not-found result
    [(address, offset, found) = (0, 0, false)]. *)
Theorem SimpleScanner_Scan_first_match
    (p : Pattern) (data : option (list Z)) (size baseAddress : Z) :
  readable data size ->
  (exists r, SimpleScanner.Scan p data size baseAddress = Some r)
  /\ (forall d i,
        IsValid p = true -> data = Some d -> Size p <= size ->
        first_match p d size i ->
        SimpleScanner.Scan p data size baseAddress
        = Some (mkScanResult (wrap64 (baseAddress + i)) i true))
  /\ (IsValid p = false \/ data = None \/ size < Size p
      \/ (exists d, data = Some d
                    /\ forall i, 0 <= i <= size - Size p -> ~ masked_match p d i) ->
      SimpleScanner.Scan p data size baseAddress = Some (mkScanResult 0 0 false)).
Proof.
  intros Hread.
  assert (Hcases :
    forall d, IsValid p = true -> data = Some d -> Size p <= size ->
      (exists k, first_match p d size k
                 /\ SimpleScanner.Scan p data size baseAddress
                    = Some (ScanResult_at (wrap64 (baseAddress + k)) k))
      \/ ((forall k, 0 <= k <= size - Size p -> ~ masked_match p d k)
          /\ SimpleScanner.Scan p data size baseAddress = Some ScanResult_none)).
  { intros d Hv -> Hfit. cbn in Hread.
    destruct (IsValid_true p Hv) as [Hpos Hmask].
    unfold SimpleScanner.Scan. rewrite Hv. cbn [negb].
    destruct (Z.ltb_spec size (Size p)) as [Hlt | _]; [lia |].
    destruct (SimpleScan_loop_spec p d Hmask size baseAddress Hread
                (Z.to_nat (size - Size p + 1)) 0)
      as [[k [Hk [Hmk [Hmin Hres]]]] | [Hnone Hres]]; [lia | lia | |].
    - left. exists k. split; [| exact Hres].
      split; [lia |]. split; [exact Hmk |].
      intros k' Hk'. apply Hmin. lia.
    - right. split; assumption. }
  split; [| split].
  - unfold SimpleScanner.Scan.
    destruct (IsValid p) eqn:Hv; cbn [negb]; [| eauto].
    destruct data as [d |]; [| eauto].
    destruct (Z.ltb_spec size (Size p)) as [Hlt | Hge]; [eauto |].
    destruct (Hcases d eq_refl eq_refl Hge) as [[k [_ Hres]] | [_ Hres]];
      unfold SimpleScanner.Scan in Hres; rewrite Hv in Hres; cbn [negb] in Hres;
      destruct (Z.ltb_spec size (Size p)); try lia; eauto.
  - intros d i Hv Hd Hfit [Hi [Hmi Hmin]].
    destruct (Hcases d Hv Hd Hfit) as [[k [[Hk [Hmk Hkmin]] Hres]] | [Hnone _]].
    + assert (i = k) as ->.
      { destruct (Z.lt_trichotomy i k) as [Hlt | [Heq | Hgt]]; [| exact Heq |].
        - exfalso. apply (Hkmin i); [lia | exact Hmi].
        - exfalso. apply (Hmin k); [lia | exact Hmk]. }
      exact Hres.
    + exfalso. apply (Hnone i Hi Hmi).
  - intros [Hv | [Hd | [Hlt | [d [Hd Hnone]]]]].
    + unfold SimpleScanner.Scan. rewrite Hv. reflexivity.
    + unfold SimpleScanner.Scan. rewrite Hd.
      destruct (negb (IsValid p)); reflexivity.
    + unfold SimpleScanner.Scan.
      destruct (negb (IsValid p)); [reflexivity |].
      destruct data; [| reflexivity].
      destruct (Z.ltb_spec size (Size p)); [reflexivity | lia].
    + destruct (IsValid p) eqn:Hv.
      * destruct (Z.lt_ge_cases size (Size p)) as [Hlt | Hge].
        -- unfold SimpleScanner.Scan. rewrite Hv, Hd. cbn [negb].
           destruct (Z.ltb_spec size (Size p)); [reflexivity | lia].
        -- destruct (Hcases d eq_refl Hd Hge)
             as [[k [[Hk [Hmk _]] _]] | [_ Hres]]; [| exact Hres].
           exfalso. apply (Hnone k Hk Hmk).
      * unfold SimpleScanner.Scan. rewrite Hv. reflexivity.
Qed.

Lemma SimpleScanner_Scan_first_match_witness :
  readable (Some demo_buffer) 29
  /\ SimpleScanner.Scan (Pattern_of_string LLP64 "48 8B 05") (Some demo_buffer)
       29 5368713216
     = Some (mkScanResult 5368713219 3 true).
Proof.
  assert (Hread : readable (Some demo_buffer) 29) by (cbn; lia).
  split; [exact Hread |].
  apply (proj1 (proj2 (SimpleScanner_Scan_first_match
                         (Pattern_of_string LLP64 "48 8B 05")
                         (Some demo_buffer) 29 5368713216 Hread))
           demo_buffer 3).
  - reflexivity.
  - reflexivity.
  - vm_compute. discriminate.
  - split; [vm_compute; split; discriminate |].
    split.
    + intros j Hj _. change (Size (Pattern_of_string LLP64 "48 8B 05")) with 3 in Hj.
      assert (Hc : j = 0 \/ j = 1 \/ j = 2) by lia.
      destruct Hc as [-> | [-> | ->]]; reflexivity.
    + intros k Hk Hm.
      assert (Hc : k = 0 \/ k = 1 \/ k = 2) by lia.
      destruct Hc as [-> | [-> | ->]];
        (assert (Habs := Hm 0 ltac:(vm_compute; split; [discriminate | reflexivity])
                           eq_refl));
        vm_compute in Habs; discriminate Habs.
Defined.

(** ** Construction of the good-suffix table *)

Lemma length_list_set {A : Type} (v : list A) (n : nat) (x : A) :
  length (list_set v n x) = length v.
Proof.
  revert n. induction v as [| h t IH]; intros [| n]; cbn; auto.
Qed.

Lemma nth_list_set_other {A : Type} (v : list A) (n k : nat) (x dflt : A) :
  n <> k -> nth k (list_set v n x) dflt = nth k v dflt.
Proof.
  revert n k.
  induction v as [| h t IH]; intros [| n] [| k] Hnk; cbn; try reflexivity.
  - exfalso. apply Hnk. reflexivity.
  - apply IH. intros Heq. apply Hnk. f_equal. exact Heq.
Qed.

Lemma list_set_same {A : Type} (v : list A) (n : nat) (x dflt : A) :
  nth n v dflt = x -> list_set v n x = v.
Proof.
  revert n.
  induction v as [| h t IH]; intros [| n] Hx; cbn in *; try reflexivity.
  - congruence.
  - f_equal. apply IH. exact Hx.
Qed.

Lemma nth_list_set_same {A : Type} (v : list A) (n : nat) (x dflt : A) :
  (n < length v)%nat -> nth n (list_set v n x) dflt = x.
Proof.
  revert n.
  induction v as [| h t IH]; intros [| n] Hn; cbn in *; try lia.
  - reflexivity.
  - apply IH. lia.
Qed.

Section GoodSuffixFacts.

Import GoodSuffix.

Variable p : Pattern.

(** [m] is [patternLength]. *)
Let m : Z := Size p.

Lemma fill_if_unset_border (st : State) (k v : Z) :
  borderTable (fill_if_unset st m k v) = borderTable st.
Proof.
  unfold fill_if_unset. destruct (gs_get (touch k st) k =? m); reflexivity.
Qed.

Lemma fill_if_unset_touches (st : State) (k v : Z) :
  In k (gs_touched (fill_if_unset st m k v)).
Proof.
  unfold fill_if_unset. destruct (gs_get (touch k st) k =? m); cbn; auto.
Qed.

Lemma fill_if_unset_keeps (st : State) (k v x : Z) :
  In x (gs_touched st) -> In x (gs_touched (fill_if_unset st m k v)).
Proof.
  unfold fill_if_unset. destruct (gs_get (touch k st) k =? m); cbn; auto.
Qed.

(** Filling with the marker value itself leaves the memory as it is. *)
Lemma fill_if_unset_marker (st : State) (k : Z) :
  gs_mem (fill_if_unset st m k m) = gs_mem st.
Proof.
  unfold fill_if_unset.
  destruct (Z.eqb_spec (gs_get (touch k st) k) m) as [Heq | Hne]; [| reflexivity].
  cbn. apply list_set_same with (dflt := 0). exact Heq.
Qed.

(** The inner loop entered with [j = patternLength + 1] does nothing. *)
Lemma border_inner_past (fuel : nat) (i : Z) (st : State) :
  border_inner fuel p m i (m + 1) st = Some (m + 1, st).
Proof.
  assert (Hg : border_guard p m i (m + 1) = false).
  { unfold border_guard. destruct (Z.leb_spec (m + 1) m); [lia | reflexivity]. }
  destruct fuel; cbn [border_inner]; rewrite Hg; reflexivity.
Qed.

(** Entered with [j = patternLength] it runs its body exactly once, whatever
    the pattern holds: the clause [j == patternLength] of the guard is true. *)
Lemma border_inner_at_end (fuel : nat) (i : Z) (st : State) :
  border_get st m = m + 1 ->
  border_inner (S fuel) p m i m st
  = Some (m + 1, fill_if_unset st m (m - 1) (m - i)).
Proof.
  intros Hb.
  assert (Hg : border_guard p m i m = true).
  { unfold border_guard. rewrite Z.leb_refl, Z.eqb_refl. reflexivity. }
  cbn [border_inner]. rewrite Hg.
  replace (border_get (fill_if_unset st m (m - 1) (m - i)) m) with (m + 1).
  - apply border_inner_past.
  - unfold border_get. rewrite fill_if_unset_border. symmetry. exact Hb.
Qed.

Lemma mem_after_last (behind : Z) :
  0 < m -> nth (Z.to_nat (m - 1)) (mem_after m behind) 0 = 1.
Proof.
  intros Hm. unfold mem_after. apply nth_list_set_same.
  rewrite length_app, repeat_length. cbn. lia.
Qed.

Lemma mem_after_single (behind : Z) :
  m = 1 -> repeat m (Z.to_nat m) ++ [behind] = mem_after m behind.
Proof.
  intros H1. unfold mem_after. rewrite H1. reflexivity.
Qed.

(** The rounds of the outer loop after the first one: [j] is
    [patternLength] at the head of each. *)
Lemma border_outer_rounds (behind : Z) (inner_fuel : nat) :
  0 < m ->
  forall (fuel : nat) (i : Z) (st : State),
    0 <= i <= m - 1 -> (Z.to_nat i <= fuel)%nat ->
    length (borderTable st) = S (Z.to_nat m) ->
    border_get st m = m + 1 ->
    border_get st i = m ->
    (i = m - 1 /\ gs_mem st = repeat m (Z.to_nat m) ++ [behind]
     \/ i < m - 1 /\ gs_mem st = mem_after m behind) ->
    exists st',
      border_outer fuel (S inner_fuel) p m i m st = Some st'
      /\ border_get st' 0 = m
      /\ gs_mem st' = mem_after m behind
      /\ (forall x, In x (gs_touched st) -> In x (gs_touched st')).
Proof.
  intros Hm.
  induction fuel as [| fuel IH]; intros i st Hi Hfuel Hlen Hbm Hbi Hmem.
  - assert (i = 0) as -> by lia.
    exists st. repeat split; auto.
    destruct Hmem as [[Hm1 Hmem] | [Hlt Hmem]]; [| exact Hmem].
    rewrite Hmem. apply mem_after_single. lia.
  - cbn [border_outer].
    destruct (Z.gtb_spec i 0) as [Hpos | Hz].
    + rewrite border_inner_at_end by exact Hbm.
      replace (m + 1 - 1) with m by lia.
      set (st1 := fill_if_unset st m (m - 1) (m - i)).
      assert (Hmem1 : gs_mem st1 = mem_after m behind).
      { unfold st1, fill_if_unset.
        destruct Hmem as [[Hi1 Hmem] | [Hlt Hmem]].
        - replace (gs_get (touch (m - 1) st) (m - 1)) with m.
          + rewrite Z.eqb_refl. cbn. rewrite Hmem.
            replace (m - i) with 1 by lia. reflexivity.
          + unfold gs_get. cbn. rewrite Hmem.
            rewrite app_nth1 by (rewrite repeat_length; lia).
            symmetry. apply nth_repeat_lt. lia.
        - replace (gs_get (touch (m - 1) st) (m - 1)) with 1.
          + destruct (Z.eqb_spec 1 m); [lia | exact Hmem].
          + unfold gs_get. cbn. rewrite Hmem. symmetry.
            apply mem_after_last. exact Hm. }
      destruct (IH (i - 1) (border_set st1 (i - 1) m)) as [st' [Hrun [H0 [Hg Ht]]]].
      * lia.
      * lia.
      * unfold border_set. cbn [borderTable]. rewrite length_list_set.
        unfold st1. rewrite fill_if_unset_border. exact Hlen.
      * unfold border_get, border_set. cbn [borderTable].
        rewrite nth_list_set_other by lia.
        unfold st1. rewrite fill_if_unset_border. exact Hbm.
      * unfold border_get, border_set. cbn [borderTable].
        apply nth_list_set_same.
        unfold st1. rewrite fill_if_unset_border. lia.
      * right. split; [lia |]. exact Hmem1.
      * exists st'. repeat split; auto.
        intros x Hx. apply Ht. cbn. unfold st1.
        apply fill_if_unset_keeps. exact Hx.
    + assert (i = 0) as -> by lia.
      exists st. repeat split; auto.
      destruct Hmem as [[Hm1 Hmem] | [Hlt Hmem]]; [| exact Hmem].
      rewrite Hmem. apply mem_after_single. lia.
Qed.

(** The completion loop subscripts the table at every [i] it counts
    through. *)
Lemma complete_loop_keeps (n : nat) :
  forall (i j : Z) (st : State) (x : Z),
    In x (gs_touched st) -> In x (gs_touched (complete_loop n m i j st)).
Proof.
  induction n as [| n IH]; intros i j st x Hx; cbn [complete_loop]; [exact Hx |].
  apply IH. apply fill_if_unset_keeps. exact Hx.
Qed.

Lemma complete_loop_touches (n : nat) :
  forall (i j : Z) (st : State) (k : Z),
    i <= k < i + Z.of_nat n ->
    In k (gs_touched (complete_loop n m i j st)).
Proof.
  induction n as [| n IH]; intros i j st k Hk; [lia |].
  cbn [complete_loop].
  destruct (Z.eq_dec k i) as [-> | Hne].
  - apply complete_loop_keeps. apply fill_if_unset_touches.
  - apply IH. lia.
Qed.

(** With [j = patternLength] it stores nothing new. *)
Lemma complete_loop_mem (n : nat) :
  forall (i : Z) (st : State),
    i + Z.of_nat n <= m + 1 ->
    gs_mem (complete_loop n m i m st) = gs_mem st.
Proof.
  induction n as [| n IH]; intros i st Hn; [reflexivity |].
  cbn [complete_loop].
  destruct (Z.eqb_spec i m) as [-> | Hne].
  - destruct n; [| lia]. cbn [complete_loop]. apply fill_if_unset_marker.
  - rewrite IH by lia. apply fill_if_unset_marker.
Qed.

Lemma BuildGoodSuffixTable_runs (behind : Z) :
  IsValid p = true ->
  exists st,
    BuildGoodSuffixTable behind p = Some st
    /\ gs_mem st = mem_after m behind
    /\ In m (gs_touched st).
Proof.
  intros Hv. destruct (IsValid_true p Hv) as [Hm _]. fold m in Hm.
  unfold BuildGoodSuffixTable. fold m.
  set (n := Z.to_nat m).
  set (st0 := mkState (repeat m n ++ [behind]) (repeat 0 (S n)) []).
  set (st1 := border_set st0 m (m + 1)).
  assert (Hlen0 : length (borderTable st0) = S n).
  { unfold st0. cbn [borderTable]. apply repeat_length. }
  assert (Hlen1 : length (borderTable st1) = S n).
  { unfold st1, border_set. cbn [borderTable].
    rewrite length_list_set. exact Hlen0. }
  assert (Hbm1 : border_get st1 m = m + 1).
  { unfold border_get, st1, border_set. cbn [borderTable].
    apply nth_list_set_same. rewrite Hlen0. lia. }
  cbn [border_outer].
  destruct (Z.gtb_spec m 0) as [_ | Hle]; [| lia].
  rewrite border_inner_past.
  replace (m + 1 - 1) with m by lia.
  destruct (border_outer_rounds behind (S n) Hm n (m - 1)
              (border_set st1 (m - 1) m)) as [st2 [Hrun [H0 [Hg _]]]].
  - lia.
  - lia.
  - unfold border_set. cbn [borderTable].
    rewrite length_list_set. exact Hlen1.
  - unfold border_get, border_set. cbn [borderTable].
    rewrite nth_list_set_other by lia. exact Hbm1.
  - unfold border_get, border_set. cbn [borderTable].
    apply nth_list_set_same. rewrite Hlen1. lia.
  - left. split; reflexivity.
  - rewrite Hrun. eexists. split; [reflexivity |]. rewrite H0. split.
    + rewrite complete_loop_mem by lia. exact Hg.
    + apply complete_loop_touches. lia.
Qed.

End GoodSuffixFacts.

Lemma firstn_list_set {A : Type} (v : list A) (n k : nat) (x : A) :
  firstn n (list_set v k x) = list_set (firstn n v) k x.
Proof.
  revert n k.
  induction v as [| h t IH]; intros [| n] [| k]; cbn; try reflexivity.
  f_equal. apply IH.
Qed.

(** Whatever bytes and wildcards the pattern holds, the table that comes out
    has [patternLength] in every entry but the last, which holds 1: the
    border computation never compares two pattern positions. *)
Lemma GoodSuffix_table_shape (behind : Z) (p : Pattern) :
  IsValid p = true ->
  exists st,
    GoodSuffix.BuildGoodSuffixTable behind p = Some st
    /\ GoodSuffix.table (Size p) st
       = list_set (repeat (Size p) (Z.to_nat (Size p))) (Z.to_nat (Size p - 1)) 1.
Proof.
  intros Hv.
  destruct (BuildGoodSuffixTable_runs p behind Hv) as [st [Hrun [Hmem _]]].
  exists st. split; [exact Hrun |].
  unfold GoodSuffix.table. rewrite Hmem. unfold mem_after.
  rewrite firstn_list_set. f_equal.
  rewrite firstn_app, repeat_length, Nat.sub_diag. cbn [firstn].
  rewrite app_nil_r. apply firstn_all2. rewrite repeat_length. lia.
Qed.

(** C5. While a [BoyerMooreScanner] is built from a valid pattern of length
    [m], every subscript applied to the good-suffix table is expected to lie
    in [[0, m-1]].  The run of [BuildGoodSuffixTable] shows otherwise for
    every valid pattern: it terminates, and its completion loop, which counts
    [i] up to [m] inclusive, subscripts the table at [m], one past its last
    element. *)
Theorem BuildGoodSuffixTable_subscript_past_end (behind : Z) (p : Pattern) :
  IsValid p = true ->
  exists st,
    GoodSuffix.BuildGoodSuffixTable behind p = Some st
    /\ In (Size p) (GoodSuffix.gs_touched st)
    /\ ~ Forall (fun k => 0 <= k <= Size p - 1) (GoodSuffix.gs_touched st).
Proof.
  intros Hv.
  destruct (BuildGoodSuffixTable_runs p behind Hv) as [st [Hrun [_ Hin]]].
  exists st. split; [exact Hrun |]. split; [exact Hin |].
  intros Hall. rewrite Forall_forall in Hall.
  specialize (Hall (Size p) Hin). lia.
Qed.

Lemma BuildGoodSuffixTable_subscript_past_end_witness :
  IsValid (Pattern_of_string LLP64 "AA") = true
  /\ exists st,
       GoodSuffix.BuildGoodSuffixTable 0 (Pattern_of_string LLP64 "AA") = Some st
       /\ In (Size (Pattern_of_string LLP64 "AA")) (GoodSuffix.gs_touched st)
       /\ ~ Forall (fun k => 0 <= k <= Size (Pattern_of_string LLP64 "AA") - 1)
              (GoodSuffix.gs_touched st).
Proof.
  split; [reflexivity |].
  apply (BuildGoodSuffixTable_subscript_past_end 0 (Pattern_of_string LLP64 "AA")).
  reflexivity.
Defined.

(** The scanner built from ["AA AA"]: the good-suffix table is [[2; 1]]
    whatever lies behind it. *)
Lemma make_AA_AA (dm : DataModel) (behind : Z) :
  BoyerMooreScanner.make behind (Pattern_of_string dm "AA AA")
  = Some (BoyerMooreScanner.mkScanner (mkPattern [170; 170] [true; true])
            (list_set (repeat 2 256) 170 1) [2; 1]).
Proof.
  assert (Hp : Pattern_of_string dm "AA AA" = mkPattern [170; 170] [true; true])
    by (destruct dm; reflexivity).
  rewrite Hp. unfold BoyerMooreScanner.make.
  change (IsValid (mkPattern [170; 170] [true; true])) with true. cbv iota.
  change (BoyerMooreScanner.BuildBadCharTable (mkPattern [170; 170] [true; true]))
    with (Some (list_set (repeat 2 256) 170 1)).
  cbv iota beta.
  destruct (GoodSuffix_table_shape behind (mkPattern [170; 170] [true; true]) eq_refl)
    as [st [Hrun Htable]].
  rewrite Hrun, Htable. reflexivity.
Qed.

(** C1. Scanner agreement fails on the code.  For the exact pattern
    ["AA AA"] and the buffer [BB AA AA], [SimpleScanner::Scan] returns the
    match at offset 1, while [BoyerMooreScanner::Scan] returns not-found:
    after the mismatch at [j = 0] it shifts by [goodSuffixTable_[0] = 2] and
    steps over the match. *)
Theorem BoyerMoore_Scan_misses_match (dm : DataModel) (behind : Z) :
  let pattern := Pattern_of_string dm "AA AA" in
  let data := Some [187; 170; 170] in
  IsValid pattern = true
  /\ mask pattern = [true; true]
  /\ SimpleScanner.Scan pattern data 3 0 = Some (mkScanResult 1 1 true)
  /\ exists sc,
       BoyerMooreScanner.make behind pattern = Some sc
       /\ BoyerMooreScanner.Scan sc data 3 0 = Some (mkScanResult 0 0 false).
Proof.
  cbv zeta.
  split; [destruct dm; reflexivity |].
  split; [destruct dm; reflexivity |].
  split; [destruct dm; reflexivity |].
  eexists. split; [apply make_AA_AA |]. reflexivity.
Qed.

(** C3. [BoyerMooreScanner::ScanAll] does not return every matching offset.
    For ["AA AA"] over [AA AA AA] the masked match holds at offsets 0 and 1
    (and [SimpleScanner::ScanAll] reports both), but the Boyer-Moore scanner
    reports offset 0 only: after the match it advances by
    [goodSuffixTable_[0] = 2], which is the pattern length and not its
    period. *)
Theorem BoyerMoore_ScanAll_misses_overlap (dm : DataModel) (behind : Z) :
  let pattern := Pattern_of_string dm "AA AA" in
  let data := [170; 170; 170] in
  masked_match pattern data 0
  /\ masked_match pattern data 1
  /\ SimpleScanner.ScanAll pattern (Some data) 3 0
     = Some [mkScanResult 0 0 true; mkScanResult 1 1 true]
  /\ exists sc,
       BoyerMooreScanner.make behind pattern = Some sc
       /\ BoyerMooreScanner.ScanAll sc (Some data) 3 0
          = Some [mkScanResult 0 0 true].
Proof.
  cbv zeta.
  assert (Hp : Pattern_of_string dm "AA AA" = mkPattern [170; 170] [true; true])
    by (destruct dm; reflexivity).
  rewrite Hp.
  assert (Hm : forall i, i = 0 \/ i = 1 ->
                 masked_match (mkPattern [170; 170] [true; true]) [170; 170; 170] i).
  { intros i Hi j Hj _. change (Size (mkPattern [170; 170] [true; true])) with 2 in Hj.
    assert (Hc : j = 0 \/ j = 1) by lia.
    destruct Hi as [-> | ->], Hc as [-> | ->]; reflexivity. }
  split; [apply Hm; left; reflexivity |].
  split; [apply Hm; right; reflexivity |].
  split; [reflexivity |].
  eexists. split; [rewrite <- Hp; apply make_AA_AA |]. reflexivity.
Qed.

(** ** Pattern strings *)

(** What the constructor does reject: a token on which [std::stoul] throws
    clears the pattern, wherever it stands. *)
Lemma Pattern_read_stoul_failure (dm : DataModel) (ts : list string) :
  forall p,
    (exists token, In token ts
                   /\ is_wildcard token = false /\ stoul16 dm token = None) ->
    Pattern_read dm ts p = Pattern_empty.
Proof.
  induction ts as [| t ts IH]; intros p [token [Hin [Hw Hs]]]; [destruct Hin |].
  cbn [Pattern_read].
  destruct Hin as [-> | Hin].
  - rewrite Hw, Hs. reflexivity.
  - destruct (is_wildcard t); [apply IH; eauto |].
    destruct (stoul16 dm t); [apply IH; eauto | reflexivity].
Qed.

(** Tokens on which it does not throw are all kept, one byte each. *)
Lemma Pattern_read_lengths (dm : DataModel) (ts : list string) :
  forall p,
    (forall token, In token ts ->
                   is_wildcard token = true \/ stoul16 dm token <> None) ->
    length (bytes (Pattern_read dm ts p)) = (length (bytes p) + length ts)%nat
    /\ length (mask (Pattern_read dm ts p)) = (length (mask p) + length ts)%nat.
Proof.
  induction ts as [| t ts IH]; intros p Hok; cbn [Pattern_read length].
  - split; lia.
  - assert (Hrest : forall token, In token ts ->
                      is_wildcard token = true \/ stoul16 dm token <> None)
      by (intros token Hin; apply Hok; right; exact Hin).
    destruct (Hok t (or_introl eq_refl)) as [Hw | Hs].
    + rewrite Hw.
      destruct (IH (mkPattern (bytes p ++ [0]) (mask p ++ [false])) Hrest)
        as [Hb Hm].
      rewrite Hb, Hm. cbn [bytes mask]. rewrite !length_app. cbn. split; lia.
    + destruct (is_wildcard t).
      * destruct (IH (mkPattern (bytes p ++ [0]) (mask p ++ [false])) Hrest)
          as [Hb Hm].
        rewrite Hb, Hm. cbn [bytes mask]. rewrite !length_app. cbn. split; lia.
      * destruct (stoul16 dm t) as [v |]; [| congruence].
        destruct (IH (mkPattern (bytes p ++ [v mod 256]) (mask p ++ [true])) Hrest)
          as [Hb Hm].
        rewrite Hb, Hm. cbn [bytes mask]. rewrite !length_app. cbn. split; lia.
Qed.

Lemma IsValidPatternString_loop_tokens (dm : DataModel) (ts : list string) :
  PatternUtils.IsValidPatternString_loop dm ts = true ->
  forall token, In token ts ->
                is_wildcard token = true \/ stoul16 dm token <> None.
Proof.
  induction ts as [| t ts IH]; intros Hok token Hin; [destruct Hin |].
  cbn [PatternUtils.IsValidPatternString_loop] in Hok.
  destruct (is_wildcard t) eqn:Hw.
  - destruct Hin as [<- | Hin]; [left; exact Hw | apply IH; assumption].
  - destruct ((Z.of_nat (String.length t) =? 0) || (Z.of_nat (String.length t) >? 3));
      [discriminate |].
    destruct (negb (PatternUtils.string_forallb PatternUtils.is_hex_char t));
      [discriminate |].
    destruct (stoul16 dm t) as [v |] eqn:Hs; [| discriminate].
    destruct (v >? 255); [discriminate |].
    destruct Hin as [<- | Hin]; [right; congruence | apply IH; assumption].
Qed.

(** The direction of the comparison that does hold: a string the validator
    accepts and that holds at least one token builds a valid pattern. *)
Lemma IsValidPatternString_sound (dm : DataModel) (s : string) :
  PatternUtils.IsValidPatternString dm s = true ->
  tokens s <> [] ->
  IsValid (Pattern_of_string dm s) = true.
Proof.
  unfold PatternUtils.IsValidPatternString, Pattern_of_string.
  destruct (is_empty s); [discriminate |].
  intros Hok Hne.
  destruct (Pattern_read_lengths dm (tokens s) Pattern_empty
              (IsValidPatternString_loop_tokens dm (tokens s) Hok)) as [Hb Hm].
  unfold IsValid. rewrite Hb, Hm. cbn [Pattern_empty bytes mask length Nat.add].
  rewrite Nat.eqb_refl, andb_true_r.
  apply negb_true_iff, Nat.eqb_neq.
  destruct (tokens s); [congruence | cbn; lia].
Qed.

(** C2. A token stream holding a token that is neither a wildcard nor a hex
    value in 0..255 is expected to yield an invalid pattern of size 0.  On
    ["123 456 789"], the out-of-range entry of the demo's validation
    table, every token is such a token ([0x123 = 291]), yet the constructor
    builds the valid three-byte pattern [23 56 89]: [std::stoul] does not
    throw and the cast to [uint8_t] keeps the low byte. *)
Theorem Pattern_of_string_keeps_out_of_range_tokens (dm : DataModel) :
  tokens "123 456 789" = ["123"; "456"; "789"]%string
  /\ forallb (fun token => negb (well_formed_token token)) (tokens "123 456 789")
     = true
  /\ stoul16 dm "123" = Some 291
  /\ Pattern_of_string dm "123 456 789" = mkPattern [35; 86; 137] [true; true; true]
  /\ IsValid (Pattern_of_string dm "123 456 789") = true
  /\ Size (Pattern_of_string dm "123 456 789") = 3.
Proof.
  destruct dm; repeat split; reflexivity.
Qed.

(** The same holds for a token that is not a hex number at all, as long as
    it starts with a hex digit: ["1G"] is read as [01]. *)
Example Pattern_of_string_keeps_trailing_garbage (dm : DataModel) :
  well_formed_token "1G" = false
  /\ Pattern_of_string dm "1G" = mkPattern [1] [true].
Proof.
  destruct dm; split; reflexivity.
Qed.

(** C6. The validator and the constructor do not apply the same token
    rules.  ["123 456 789"] is rejected by [IsValidPatternString] (value too
    large for a byte) and accepted by the constructor; a string of blanks is
    accepted by the validator (it holds no token to reject) and builds the
    empty, invalid pattern. *)
Theorem IsValidPatternString_differs_from_constructor (dm : DataModel) :
  (PatternUtils.IsValidPatternString dm "123 456 789" = false
   /\ IsValid (Pattern_of_string dm "123 456 789") = true)
  /\ (PatternUtils.IsValidPatternString dm " " = true
      /\ IsValid (Pattern_of_string dm " ") = false).
Proof.
  destruct dm; repeat split; reflexivity.
Qed.

(** ** Order facts about binary32 comparison *)

Ltac compare_cases :=
  repeat match goal with
    | H : context [Pos.compare_cont Eq ?a ?b] |- _ =>
        change (Pos.compare_cont Eq a b) with (Pos.compare a b) in H
    | |- context [Pos.compare_cont Eq ?a ?b] =>
        change (Pos.compare_cont Eq a b) with (Pos.compare a b)
    end;
  repeat match goal with
    | H : context [Z.compare ?a ?b] |- _ => destruct (Z.compare_spec a b)
    | |- context [Z.compare ?a ?b] => destruct (Z.compare_spec a b)
    | H : context [Pos.compare ?a ?b] |- _ => destruct (Pos.compare_spec a b)
    | |- context [Pos.compare ?a ?b] => destruct (Pos.compare_spec a b)
    end;
  cbn in *; try discriminate; try reflexivity; try lia.

Lemma SFltb_trans (x y z : spec_float) :
  SFltb x y = true -> SFltb y z = true -> SFltb x z = true.
Proof.
  unfold SFltb, SFcompare.
  destruct x as [sx | sx | | sx mx ex], y as [sy | sy | | sy my ey],
           z as [sz | sz | | sz mz ez];
    try destruct sx; try destruct sy; try destruct sz;
    cbn; intros Hxy Hyz; try discriminate; try reflexivity;
    compare_cases.
Qed.

Lemma SFltb_SFleb_trans (x y z : spec_float) :
  SFltb x y = true -> SFleb y z = true -> SFltb x z = true.
Proof.
  unfold SFltb, SFleb, SFcompare.
  destruct x as [sx | sx | | sx mx ex], y as [sy | sy | | sy my ey],
           z as [sz | sz | | sz mz ez];
    try destruct sx; try destruct sy; try destruct sz;
    cbn; intros Hxy Hyz; try discriminate; try reflexivity;
    compare_cases.
Qed.

Lemma SFltb_asym (x y : spec_float) :
  SFltb x y = true -> SFltb y x = false.
Proof.
  unfold SFltb, SFcompare.
  destruct x as [sx | sx | | sx mx ex], y as [sy | sy | | sy my ey];
    try destruct sx; try destruct sy;
    cbn; intros Hxy; try discriminate; try reflexivity;
    compare_cases.
Qed.

Lemma SFleb_not_gt (x y : spec_float) :
  SFleb x y = true -> SFltb y x = false.
Proof.
  unfold SFltb, SFleb, SFcompare.
  destruct x as [sx | sx | | sx mx ex], y as [sy | sy | | sy my ey];
    try destruct sx; try destruct sy;
    cbn; intros Hxy; try discriminate; try reflexivity;
    compare_cases.
Qed.

(** ** FuzzyScan *)

Section FuzzyScanFacts.

Import Advanced.

Variable p : Pattern.
Variable d : list Z.
Variable threshold : f32.
Variable baseAddress : Z.
Hypothesis Hmask : length (mask p) = length (bytes p).
Hypothesis Hthreshold : f32_lt f32_zero threshold = true.

Lemma count_loop_total (i : Z) :
  0 <= i -> i + Size p <= Z.of_nat (length d) ->
  forall (n : nat) (j matches totalChecks : Z),
    0 <= j -> j + Z.of_nat n = Size p ->
    exists r, count_loop n p d i j matches totalChecks = Some r.
Proof.
  intros Hi Hfit. unfold Size in *.
  induction n as [| n IH]; intros j matches totalChecks Hj Hn.
  - eexists. reflexivity.
  - cbn [count_loop].
    rewrite (at_index_nth (mask p) j false) by lia.
    destruct (nth (Z.to_nat j) (mask p) false).
    + rewrite (at_index_nth d (i + j) 0) by lia.
      rewrite (at_index_nth (bytes p) j 0) by lia.
      apply IH; lia.
    + apply IH; lia.
Qed.

Lemma similarity_at_total (i : Z) :
  0 <= i -> i + Size p <= Z.of_nat (length d) ->
  exists sim, similarity_at p d i = Some sim.
Proof.
  intros Hi Hfit. unfold similarity_at.
  destruct (count_loop_total i Hi Hfit (Z.to_nat (Size p)) 0 0 0)
    as [[matches totalChecks] Hr]; [lia | unfold Size; lia |].
  rewrite Hr. destruct (totalChecks >? 0); eauto.
Qed.

(** Loop invariant: [bestSimilarity] is the literal [0.0f] or lies above
    it.  Under it the loop, entered at offset [i], reports [found] exactly
    when [bestSimilarity] is already positive or a later offset has a
    positive similarity. *)
Lemma FuzzyScan_loop_found (size : Z) :
  size <= Z.of_nat (length d) ->
  forall (n : nat) (i : Z) (best : f32) (bestOffset : Z),
    0 <= i -> i + Z.of_nat n = size - Size p + 1 ->
    best = f32_zero \/ f32_lt f32_zero best = true ->
    exists r,
      FuzzyScan_loop n p d threshold baseAddress i best bestOffset = Some r
      /\ (fz_found r = true <->
          f32_lt f32_zero best = true
          \/ positive_similarity p d i (size - Size p + 1)).
Proof.
  intros Hsize.
  induction n as [| n IH]; intros i best bestOffset Hi Hn Hinv.
  - cbn [FuzzyScan_loop].
    destruct (f32_lt f32_zero best) eqn:Hbest; eexists; (split; [reflexivity |]).
    + cbn. split; auto.
    + cbn. split; [discriminate |].
      intros [Habs | [k [s [Hk _]]]]; [discriminate | lia].
  - cbn [FuzzyScan_loop].
    destruct (similarity_at_total i) as [sim Hsim]; [lia | lia |].
    rewrite Hsim. destruct sim as [s |].
    + destruct (f32_le threshold s) eqn:Hle.
      * eexists. split; [reflexivity |]. cbn. split; [| reflexivity].
        intros _. right. exists i, s.
        split; [lia |]. split; [exact Hsim |].
        apply SFltb_SFleb_trans with (y := threshold); assumption.
      * destruct (IH (i + 1) (if f32_lt best s then s else best)
                     (if f32_lt best s then i else bestOffset))
          as [r [Hr Hiff]]; [lia | lia | |].
        { destruct (f32_lt best s) eqn:Hbs; [| exact Hinv].
          right. destruct Hinv as [-> | Hpos]; [exact Hbs |].
          apply SFltb_trans with (y := best); assumption. }
        exists r. split; [exact Hr |]. rewrite Hiff. split.
        -- intros [Hnew | [k [s' [Hk Hs']]]].
           ++ destruct (f32_lt best s) eqn:Hbs; [| left; exact Hnew].
              right. exists i, s. split; [lia |]. split; assumption.
           ++ right. exists k, s'. split; [lia | exact Hs'].
        -- intros [Hpos | [k [s' [Hk [Hs' Hpos']]]]].
           ++ left. destruct (f32_lt best s) eqn:Hbs; [| exact Hpos].
              apply SFltb_trans with (y := best); assumption.
           ++ destruct (Z.eq_dec k i) as [-> | Hne].
              ** rewrite Hsim in Hs'. injection Hs' as <-.
                 left. destruct (f32_lt best s) eqn:Hbs; [exact Hpos' |].
                 destruct Hinv as [-> | Hpos]; [congruence | exact Hpos].
              ** right. exists k, s'. split; [lia |]. split; assumption.
    + destruct (IH (i + 1) best bestOffset) as [r [Hr Hiff]]; [lia | lia | exact Hinv |].
      exists r. split; [exact Hr |]. rewrite Hiff. split.
      * intros [Hpos | [k [s' [Hk Hs']]]]; [left; exact Hpos |].
        right. exists k, s'. split; [lia | exact Hs'].
      * intros [Hpos | [k [s' [Hk [Hs' Hpos']]]]]; [left; exact Hpos |].
        destruct (Z.eq_dec k i) as [-> | Hne]; [congruence |].
        right. exists k, s'. split; [lia |]. split; assumption.
Qed.

End FuzzyScanFacts.

(** C7, as stated, fails at threshold [0.0f]: for the pattern ["AA"] over
    the one-byte buffer [BB] the only offset has similarity [0/1 = 0], which
    is [>= threshold], so the scan returns at once with [found = true]
    although no offset has a similarity above zero. *)
Lemma FuzzyScan_found_at_threshold_zero :
  let p := mkPattern [170] [true] in
  let d := [187] in
  IsValid p = true
  /\ has_exact_position p = true
  /\ readable (Some d) 1
  /\ Size p <= 1
  /\ Advanced.f32_le Advanced.f32_zero Advanced.f32_zero = true
  /\ Advanced.f32_le Advanced.f32_zero Advanced.f32_one = true
  /\ ~ found_iff_positive_similarity p d 1 Advanced.f32_zero 0.
Proof.
  cbv zeta.
  repeat (split; [first [reflexivity | cbn; lia] |]).
  intros Hclaim.
  specialize (Hclaim _ eq_refl).
  destruct Hclaim as [Hfound _].
  destruct (Hfound eq_refl) as [i [s [Hi [Hs Hpos]]]].
  change (Size (mkPattern [170] [true])) with 1 in Hi.
  assert (i = 0) as -> by lia.
  vm_compute in Hs. injection Hs as <-.
  vm_compute in Hpos. discriminate Hpos.
Qed.

(** C7, amended.  For a threshold in (0, 1], a valid pattern with at least
    one must-match position and a non-null buffer with
    [size >= pattern.Size()]: [FuzzyScan] returns a result, and its [found]
    flag is true exactly when some viable offset has a similarity above zero,
    whether or not any similarity reaches the threshold. *)
Theorem FuzzyScan_found_iff_positive
    (p : Pattern) (d : list Z) (size : Z) (threshold : Advanced.f32)
    (baseAddress : Z) :
  IsValid p = true ->
  has_exact_position p = true ->
  readable (Some d) size ->
  Size p <= size ->
  Advanced.f32_lt Advanced.f32_zero threshold = true ->
  Advanced.f32_le threshold Advanced.f32_one = true ->
  exists r,
    Advanced.FuzzyScan p (Some d) size threshold baseAddress = Some r
    /\ (Advanced.fz_found r = true <->
        exists i s,
          0 <= i <= size - Size p
          /\ Advanced.similarity_at p d i = Some (Some s)
          /\ Advanced.f32_lt Advanced.f32_zero s = true).
Proof.
  intros Hv _ Hread Hfit Hpos Hle1.
  destruct (IsValid_true p Hv) as [Hm Hmask]. cbn in Hread.
  unfold Advanced.FuzzyScan. rewrite Hv. cbn [negb].
  destruct (Z.ltb_spec size (Size p)) as [Hlt | _]; [lia |].
  unfold Advanced.f32_lt, Advanced.f32_le in *.
  rewrite (SFltb_asym _ _ Hpos), (SFleb_not_gt _ _ Hle1). cbn [orb].
  destruct (FuzzyScan_loop_found p d threshold baseAddress Hmask Hpos size Hread
              (Z.to_nat (size - Size p + 1)) 0 Advanced.f32_zero 0)
    as [r [Hr Hiff]]; [lia | lia | left; reflexivity |].
  exists r. split; [exact Hr |].
  unfold Advanced.f32_lt in Hiff. rewrite Hiff.
  unfold positive_similarity, Advanced.f32_lt. split.
  - intros [Habs | [i [s [Hi Hs]]]]; [discriminate |].
    exists i, s. split; [lia | exact Hs].
  - intros [i [s [Hi Hs]]]. right. exists i, s. split; [lia | exact Hs].
Qed.

(** The 50% case of the demo program: [DE AD BE EF] over [DE AD AA AA] with
    threshold [0.8f].  The best similarity is [0.5], below the threshold,
    and [found] is true. *)
Lemma FuzzyScan_found_iff_positive_witness :
  let p := Pattern_of_string LLP64 "DE AD BE EF" in
  let d := [222; 173; 170; 170] in
  let threshold := S754_finite false 13421773 (-24) in
  Advanced.FuzzyScan p (Some d) 4 threshold 0
  = Some (Advanced.mkFuzzyResult 0 0 (S754_finite false 8388608 (-24)) true)
  /\ Advanced.f32_le threshold (S754_finite false 8388608 (-24)) = false
  /\ exists r,
       Advanced.FuzzyScan p (Some d) 4 threshold 0 = Some r
       /\ (Advanced.fz_found r = true <->
           exists i s,
             0 <= i <= 4 - Size p
             /\ Advanced.similarity_at p d i = Some (Some s)
             /\ Advanced.f32_lt Advanced.f32_zero s = true).
Proof.
  cbv zeta.
  split; [reflexivity |]. split; [reflexivity |].
  apply (FuzzyScan_found_iff_positive (Pattern_of_string LLP64 "DE AD BE EF")
           [222; 173; 170; 170] 4 (S754_finite false 13421773 (-24)) 0).
  - reflexivity.
  - reflexivity.
  - cbn. lia.
  - vm_compute. discriminate.
  - reflexivity.
  - reflexivity.
Defined.

(** C10. A valid pattern made of wildcards only never has a similarity
    computed ([totalChecks] stays 0), so [FuzzyScan] returns the empty result
    [(address, offset, similarity, found) = (0, 0, 0.0, false)], for any
    threshold, although the masked match predicate of the scanners holds at
    every viable offset. *)
Theorem FuzzyScan_all_wildcards
    (p : Pattern) (d : list Z) (size : Z) (threshold : Advanced.f32)
    (baseAddress : Z) :
  IsValid p = true ->
  forallb negb (mask p) = true ->
  readable (Some d) size ->
  Size p <= size ->
  Advanced.FuzzyScan p (Some d) size threshold baseAddress
  = Some (Advanced.mkFuzzyResult 0 0 (S754_zero false) false)
  /\ forall i, 0 <= i <= size - Size p -> masked_match p d i.
Proof.
  intros Hv Hwild Hread Hfit.
  destruct (IsValid_true p Hv) as [Hm Hmask]. cbn in Hread.
  assert (Hnth : forall j, nth (Z.to_nat j) (mask p) false = false).
  { intros j. rewrite forallb_forall in Hwild.
    destruct (nth_in_or_default (Z.to_nat j) (mask p) false) as [Hin | ->];
      [| reflexivity].
    apply Hwild in Hin. apply negb_true_iff in Hin. exact Hin. }
  assert (Hcount : forall i n j a b,
             0 <= j -> j + Z.of_nat n = Size p ->
             Advanced.count_loop n p d i j a b = Some (a, b)).
  { intros i. unfold Size.
    induction n as [| n IH]; intros j a b Hj Hn; [reflexivity |].
    cbn [Advanced.count_loop].
    rewrite (at_index_nth (mask p) j false) by lia.
    rewrite Hnth. apply IH; lia. }
  assert (Hsim : forall i, Advanced.similarity_at p d i = Some None).
  { intros i. unfold Advanced.similarity_at.
    rewrite Hcount by (unfold Size; lia). reflexivity. }
  assert (Hloop : forall n i,
             Advanced.FuzzyScan_loop n p d threshold baseAddress i
               Advanced.f32_zero 0
             = Some Advanced.FuzzyResult_none).
  { induction n as [| n IH]; intros i; cbn [Advanced.FuzzyScan_loop].
    - reflexivity.
    - rewrite Hsim. apply IH. }
  split.
  - unfold Advanced.FuzzyScan. rewrite Hv. cbn [negb].
    destruct ((size <? Size p) || Advanced.f32_lt threshold Advanced.f32_zero
              || Advanced.f32_lt Advanced.f32_one threshold);
      [reflexivity | apply Hloop].
  - intros i Hi j Hj Hmj. rewrite Hnth in Hmj. discriminate Hmj.
Qed.

Lemma FuzzyScan_all_wildcards_witness :
  Advanced.FuzzyScan (Pattern_of_string LLP64 "?? ?") (Some [222; 173; 190]) 3
    (S754_finite false 13421773 (-24)) 0
  = Some (Advanced.mkFuzzyResult 0 0 (S754_zero false) false)
  /\ forall i, 0 <= i <= 3 - Size (Pattern_of_string LLP64 "?? ?") ->
       masked_match (Pattern_of_string LLP64 "?? ?") [222; 173; 190] i.
Proof.
  apply (FuzzyScan_all_wildcards (Pattern_of_string LLP64 "?? ?")
           [222; 173; 190] 3 (S754_finite false 13421773 (-24)) 0).
  - reflexivity.
  - reflexivity.
  - cbn. lia.
  - vm_compute. discriminate.
Defined.

(** ** FastScan *)

Lemma at_index_repeat_true (n : nat) (i : Z) :
  0 <= i < Z.of_nat n -> at_index (repeat true n) i = Some true.
Proof.
  intros Hi. rewrite (at_index_nth _ i true) by (rewrite repeat_length; lia).
  f_equal. apply nth_repeat.
Qed.

Lemma FastScan_compare_MatchesPattern (bs d : list Z) (off : Z) :
  forall (n : nat) (j : Z),
    0 <= j -> j + Z.of_nat n = Z.of_nat (length bs) ->
    SimpleScanner.MatchesPattern_loop n (mkPattern bs (repeat true (length bs)))
      d off j
    = SIMDScanner.FastScan_compare n bs d off j.
Proof.
  induction n as [| n IH]; intros j Hj Hn; [reflexivity |].
  cbn [SimpleScanner.MatchesPattern_loop SIMDScanner.FastScan_compare mask bytes].
  rewrite at_index_repeat_true by lia.
  destruct (at_index d (off + j)) as [x |]; [| reflexivity].
  destruct (at_index bs j) as [b |]; [| reflexivity].
  destruct (negb (x =? b)); [reflexivity |].
  apply IH; lia.
Qed.

Lemma FastScan_loop_Scan_loop (bs d : list Z) (baseAddress : Z) :
  forall (n : nat) (i : Z),
    SimpleScanner.Scan_loop n (mkPattern bs (repeat true (length bs))) d
      baseAddress i
    = SIMDScanner.FastScan_loop n bs d baseAddress i.
Proof.
  induction n as [| n IH]; intros i; [reflexivity |].
  cbn [SimpleScanner.Scan_loop SIMDScanner.FastScan_loop].
  unfold SimpleScanner.MatchesPattern.
  replace (Z.to_nat (Size (mkPattern bs (repeat true (length bs)))))
    with (length bs) by (unfold Size; cbn [bytes]; lia).
  rewrite FastScan_compare_MatchesPattern by lia.
  destruct (SIMDScanner.FastScan_compare (length bs) bs d i 0) as [[|] |];
    [reflexivity | apply IH | reflexivity].
Qed.

(** C9. [SIMDScanner::FastScan] and [SimpleScanner::Scan] on the all-exact
    pattern built from the same bytes return the same result (same [found]
    flag, same offset, same address) on every buffer, size and base address;
    this includes the not-found result, and the empty byte sequence. *)
Theorem FastScan_agrees_with_SimpleScanner
    (bs : list Z) (data : option (list Z)) (size baseAddress : Z) :
  SIMDScanner.FastScan bs data size baseAddress
  = SimpleScanner.Scan (Pattern_of_vectors bs (repeat true (length bs)))
      data size baseAddress.
Proof.
  unfold Pattern_of_vectors. rewrite repeat_length, Nat.eqb_refl.
  unfold SIMDScanner.FastScan, SimpleScanner.Scan, IsValid, Size.
  cbn [bytes mask]. rewrite repeat_length, Nat.eqb_refl, andb_true_r, negb_involutive.
  destruct (Nat.eqb (length bs) 0); [reflexivity |].
  destruct data as [d |]; [| reflexivity].
  destruct (size <? Z.of_nat (length bs)); [reflexivity |].
  symmetry. apply FastScan_loop_Scan_loop.
Qed.

(** ** AnalyzeMemory *)

(** C8, as stated, fails for a null pointer passed with a non-zero size:
    [totalSize] is assigned from [size] before the pointer is looked at. *)
Lemma AnalyzeMemory_null_keeps_size :
  (@None (list Z) = None \/ 5 = 0) /\ ~ zeroed_stats None 5.
Proof.
  split; [left; reflexivity |].
  intros Hclaim.
  destruct (Hclaim (fun x => x) (fun l => l) _ eq_refl) as [Htotal _].
  discriminate Htotal.
Qed.

(** C8, amended.  With a null pointer or with [size == 0], [AnalyzeMemory]
    returns at once, whatever [std::log2] and [std::sort] are: [totalSize]
    is the [size] passed (0 when [size == 0]), the entropy is [0.0], the
    list of most common bytes is empty, and so is every other field. *)
Theorem AnalyzeMemory_empty_input
    (log2 : Advanced.f64 -> Advanced.f64)
    (sort_by_count : list (Z * Z) -> list (Z * Z))
    (data : option (list Z)) (size : Z) :
  data = None \/ size = 0 ->
  Advanced.AnalyzeMemory log2 sort_by_count data size
  = Some (Advanced.mkMemoryStats size 0 0 [] [] (S754_zero false)).
Proof.
  intros [-> | ->]; unfold Advanced.AnalyzeMemory.
  - reflexivity.
  - destruct data; reflexivity.
Qed.

Lemma AnalyzeMemory_empty_input_witness :
  (Some [1; 2; 3] = None \/ 0 = 0)
  /\ Advanced.AnalyzeMemory (fun x => x) (fun l => l) (Some [1; 2; 3]) 0
     = Some (Advanced.mkMemoryStats 0 0 0 [] [] (S754_zero false)).
Proof.
  split; [right; reflexivity |].
  apply (AnalyzeMemory_empty_input (fun x => x) (fun l => l) (Some [1; 2; 3]) 0).
  right. reflexivity.
Defined.

(** * Further properties of the code *)

(** ** The string constructor *)

Lemma canonical_entries_snoc (bs : list Z) (ms : list bool) (b : Z) (m : bool) :
  canonical_entries bs ms ->
  (if m then is_byte b else b = 0) ->
  canonical_entries (bs ++ [b]) (ms ++ [m]).
Proof.
  revert ms.
  induction bs as [| b0 bs IH]; intros [| m0 ms] Hc Hb; cbn in *;
    try contradiction.
  - split; [exact Hb | exact I].
  - destruct Hc as [H0 Hc]. split; [exact H0 | apply IH; assumption].
Qed.

Lemma canonical_entries_length (bs : list Z) (ms : list bool) :
  canonical_entries bs ms -> length ms = length bs.
Proof.
  revert ms.
  induction bs as [| b bs IH]; intros [| m ms] Hc; cbn in *;
    try contradiction; [reflexivity |].
  destruct Hc as [_ Hc]. f_equal. apply IH. exact Hc.
Qed.

Lemma canonical_entries_bytes (bs : list Z) (ms : list bool) :
  canonical_entries bs ms -> Forall is_byte bs.
Proof.
  revert ms.
  induction bs as [| b bs IH]; intros [| m ms] Hc; cbn in *;
    try contradiction; constructor.
  - destruct Hc as [Hb _]. destruct m; [exact Hb |]. subst b. unfold is_byte. lia.
  - destruct Hc as [_ Hc]. apply (IH ms). exact Hc.
Qed.

Lemma Pattern_read_canonical (dm : DataModel) (ts : list string) :
  forall p, canonical p -> canonical (Pattern_read dm ts p).
Proof.
  unfold canonical.
  induction ts as [| t ts IH]; intros p Hp; cbn [Pattern_read]; [exact Hp |].
  destruct (is_wildcard t).
  - apply IH. cbn [bytes mask]. apply canonical_entries_snoc; [exact Hp | reflexivity].
  - destruct (stoul16 dm t) as [v |]; [| exact I].
    apply IH. cbn [bytes mask]. apply canonical_entries_snoc; [exact Hp |].
    unfold is_byte. apply Z.mod_pos_bound. lia.
Qed.

Lemma Pattern_of_string_bytes (dm : DataModel) (s : string) :
  Forall is_byte (bytes (Pattern_of_string dm s)).
Proof.
  apply (canonical_entries_bytes _ (mask (Pattern_of_string dm s))).
  unfold Pattern_of_string. apply Pattern_read_canonical. exact I.
Qed.

(** X1. Whatever the string, the pattern the constructor builds has as many
    mask entries as bytes, every byte in 0..255 and the byte [00] under every
    wildcard; so it is valid exactly when it is not empty. *)
Theorem Pattern_of_string_canonical (dm : DataModel) (s : string) :
  canonical (Pattern_of_string dm s)
  /\ length (mask (Pattern_of_string dm s)) = length (bytes (Pattern_of_string dm s))
  /\ Forall is_byte (bytes (Pattern_of_string dm s))
  /\ (IsValid (Pattern_of_string dm s) = true <-> 0 < Size (Pattern_of_string dm s)).
Proof.
  assert (Hc : canonical (Pattern_of_string dm s)).
  { unfold Pattern_of_string. apply Pattern_read_canonical. exact I. }
  pose proof (canonical_entries_length _ _ Hc) as Hlen.
  split; [exact Hc |]. split; [exact Hlen |].
  split; [apply (canonical_entries_bytes _ _ Hc) |].
  unfold IsValid, Size. rewrite Hlen, Nat.eqb_refl, andb_true_r.
  rewrite negb_true_iff, Nat.eqb_neq. lia.
Qed.

Ltac bool_cases :=
  repeat match goal with
    | |- context [?a <=? ?b] => destruct (Z.leb_spec a b)
    | |- context [?a =? ?b] => destruct (Z.eqb_spec a b)
    | H : context [?a <=? ?b] |- _ => destruct (Z.leb_spec a b)
    | H : context [?a =? ?b] |- _ => destruct (Z.eqb_spec a b)
    end;
  cbn in *; try discriminate; try lia; auto.

Lemma is_hex_char_code (c : ascii) :
  PatternUtils.is_hex_char c = true ->
  isspace c = false
  /\ (code c =? 45) = false /\ (code c =? 43) = false
  /\ (code c =? 120) = false /\ (code c =? 88) = false
  /\ exists v, hex_value c = Some v.
Proof.
  unfold PatternUtils.is_hex_char, isspace, hex_value, isdigit.
  generalize (code c). intros k H.
  repeat split; try (bool_cases; fail).
  bool_cases; eauto.
Qed.

(** On a token of hex digits [std::stoul] converts the whole token. *)
Lemma stoul16_hex_token (dm : DataModel) (token : string) (v : Z) :
  PatternUtils.string_forallb PatternUtils.is_hex_char token = true ->
  hex_run token 0 false = Some v ->
  v <= ULONG_MAX dm ->
  stoul16 dm token = Some v.
Proof.
  intros Hhex Hrun Hmax.
  destruct token as [| c rest]; [discriminate Hrun |].
  cbn [PatternUtils.string_forallb] in Hhex.
  apply andb_true_iff in Hhex. destruct Hhex as [Hc Hrest].
  destruct (is_hex_char_code c Hc) as [Hsp [H45 [H43 _]]].
  unfold stoul16. cbn [skip_spaces]. rewrite Hsp, H45, H43.
  assert (Hs3 :
    match String c rest with
    | String z (String x r) =>
        if (code z =? 48) && ((code x =? 120) || (code x =? 88))
           && starts_with_hex_digit r
        then r else String c rest
    | _ => String c rest
    end = String c rest).
  { destruct rest as [| x r]; [reflexivity |].
    cbn [PatternUtils.string_forallb] in Hrest.
    apply andb_true_iff in Hrest. destruct Hrest as [Hx _].
    destruct (is_hex_char_code x Hx) as [_ [_ [_ [H120 [H88 _]]]]].
    rewrite H120, H88. cbn [orb]. rewrite andb_false_r. reflexivity. }
  rewrite Hs3, Hrun.
  destruct (Z.gtb_spec v (ULONG_MAX dm)); [lia | reflexivity].
Qed.

Lemma well_formed_token_read (dm : DataModel) (token : string) :
  well_formed_token token = true ->
  is_wildcard token = true \/ stoul16 dm token <> None.
Proof.
  unfold well_formed_token, hex_byte_token. intros H.
  destruct (is_wildcard token); [left; reflexivity | right].
  cbn [orb] in H.
  apply andb_true_iff in H. destruct H as [H Hv].
  apply andb_true_iff in H. destruct H as [_ Hhex].
  destruct (hex_run token 0 false) as [v |] eqn:Hrun; [| discriminate].
  rewrite (stoul16_hex_token dm token v Hhex Hrun); [discriminate |].
  apply Z.leb_le in Hv. destruct dm; cbn; lia.
Qed.

(** X2. A string whose tokens are all wildcards ([?], [??]) or hex numbers
    of value 0..255, and that has at least one token, builds a valid pattern
    with one position per token. *)
Theorem Pattern_of_string_well_formed (dm : DataModel) (s : string) :
  forallb well_formed_token (tokens s) = true ->
  tokens s <> [] ->
  IsValid (Pattern_of_string dm s) = true
  /\ Size (Pattern_of_string dm s) = Z.of_nat (length (tokens s)).
Proof.
  intros Hall Hne. rewrite forallb_forall in Hall.
  destruct (Pattern_read_lengths dm (tokens s) Pattern_empty) as [Hb Hm].
  { intros token Hin. apply well_formed_token_read. apply Hall. exact Hin. }
  fold (Pattern_of_string dm s) in Hb, Hm.
  cbn [Pattern_empty bytes mask length Nat.add] in Hb, Hm.
  unfold IsValid, Size. rewrite Hb, Hm, Nat.eqb_refl, andb_true_r.
  split; [| reflexivity].
  apply negb_true_iff, Nat.eqb_neq.
  destruct (tokens s); [congruence | cbn; lia].
Qed.

Lemma Pattern_of_string_well_formed_witness :
  IsValid (Pattern_of_string LLP64 "48 8b 05 ?? ? 7") = true
  /\ Size (Pattern_of_string LLP64 "48 8b 05 ?? ? 7")
     = Z.of_nat (length (tokens "48 8b 05 ?? ? 7")).
Proof.
  apply (Pattern_of_string_well_formed LLP64 "48 8b 05 ?? ? 7").
  - reflexivity.
  - discriminate.
Defined.

(** A character no number starts with: neither white space, nor a sign, nor
    a hex digit. *)
Lemma stoul16_bad_start (dm : DataModel) (c : ascii) (rest : string) :
  isspace c = false ->
  (code c =? 45) = false -> (code c =? 43) = false ->
  hex_value c = None ->
  stoul16 dm (String c rest) = None.
Proof.
  intros Hsp H45 H43 Hhex.
  unfold stoul16. cbn [skip_spaces]. rewrite Hsp, H45, H43.
  assert (H48 : (code c =? 48) = false).
  { unfold hex_value, isdigit in Hhex. revert Hhex. generalize (code c). intros k Hk.
    bool_cases. }
  destruct rest as [| x r].
  - cbn [hex_run]. rewrite Hhex. reflexivity.
  - rewrite H48. cbn [andb hex_run]. rewrite Hhex. reflexivity.
Qed.

(** X3. Fail-fast parsing: as soon as one token that is not a wildcard
    starts with a character that is neither a hex digit nor a sign, the
    whole pattern is cleared, whatever the other tokens are. *)
Theorem Pattern_of_string_bad_token
    (dm : DataModel) (s : string) (c : ascii) (rest : string) :
  In (String c rest) (tokens s) ->
  is_wildcard (String c rest) = false ->
  isspace c = false ->
  hex_value c = None ->
  code c <> 45 -> code c <> 43 ->
  Pattern_of_string dm s = mkPattern [] []
  /\ IsValid (Pattern_of_string dm s) = false
  /\ Size (Pattern_of_string dm s) = 0.
Proof.
  intros Hin Hw Hsp Hhex H45 H43.
  assert (Hempty : Pattern_of_string dm s = Pattern_empty).
  { unfold Pattern_of_string. apply Pattern_read_stoul_failure.
    exists (String c rest). split; [exact Hin |]. split; [exact Hw |].
    apply stoul16_bad_start; try assumption; apply Z.eqb_neq; assumption. }
  rewrite Hempty. repeat split.
Qed.

Lemma Pattern_of_string_bad_token_witness :
  Pattern_of_string LLP64 "48 8B XY 05" = mkPattern [] []
  /\ IsValid (Pattern_of_string LLP64 "48 8B XY 05") = false
  /\ Size (Pattern_of_string LLP64 "48 8B XY 05") = 0.
Proof.
  apply (Pattern_of_string_bad_token LLP64 "48 8B XY 05" "X" "Y").
  - vm_compute. right. right. left. reflexivity.
  - reflexivity.
  - reflexivity.
  - reflexivity.
  - vm_compute. discriminate.
  - vm_compute. discriminate.
Defined.

(** X4. What [IsValidPatternString] promises about the constructor: a string
    it accepts and that holds at least one token builds a valid pattern with
    one position per token. *)
Theorem IsValidPatternString_accepted (dm : DataModel) (s : string) :
  PatternUtils.IsValidPatternString dm s = true ->
  tokens s <> [] ->
  IsValid (Pattern_of_string dm s) = true
  /\ Size (Pattern_of_string dm s) = Z.of_nat (length (tokens s)).
Proof.
  unfold PatternUtils.IsValidPatternString.
  destruct (is_empty s); [discriminate |].
  intros Hok Hne.
  destruct (Pattern_read_lengths dm (tokens s) Pattern_empty
              (IsValidPatternString_loop_tokens dm (tokens s) Hok)) as [Hb Hm].
  fold (Pattern_of_string dm s) in Hb, Hm.
  cbn [Pattern_empty bytes mask length Nat.add] in Hb, Hm.
  unfold IsValid, Size. rewrite Hb, Hm, Nat.eqb_refl, andb_true_r.
  split; [| reflexivity].
  apply negb_true_iff, Nat.eqb_neq.
  destruct (tokens s); [congruence | cbn; lia].
Qed.

Lemma IsValidPatternString_accepted_witness :
  IsValid (Pattern_of_string LP64 "48 8B 05 ? ? ? ?") = true
  /\ Size (Pattern_of_string LP64 "48 8B 05 ? ? ? ?")
     = Z.of_nat (length (tokens "48 8B 05 ? ? ? ?")).
Proof.
  apply (IsValidPatternString_accepted LP64 "48 8B 05 ? ? ? ?").
  - reflexivity.
  - discriminate.
Defined.

(** ** ToString *)

Lemma string_append_assoc (a b c : string) :
  String.append (String.append a b) c = String.append a (String.append b c).
Proof.
  induction a as [| x a IH]; cbn; [reflexivity | f_equal; exact IH].
Qed.

Lemma string_append_empty_r (a : string) : String.append a EmptyString = a.
Proof.
  induction a as [| x a IH]; cbn; [reflexivity | f_equal; exact IH].
Qed.

Lemma at_index_middle {A : Type} (pre suf : list A) (x : A) :
  at_index (pre ++ x :: suf) (Z.of_nat (length pre)) = Some x.
Proof.
  unfold at_index.
  destruct (Z.ltb_spec (Z.of_nat (length pre)) 0); [lia |].
  rewrite Nat2Z.id, nth_error_app2 by lia.
  rewrite Nat.sub_diag. reflexivity.
Qed.

(** The rounds of the loop after the first: every token is written behind
    one blank. *)
Lemma ToString_loop_spaced (bsuf : list Z) :
  forall (msuf : list bool) (bpre : list Z) (mpre : list bool) (result : string),
    length msuf = length bsuf ->
    length mpre = length bpre ->
    (0 < length bpre)%nat ->
    PatternUtils.ToString_loop (length bsuf)
      (mkPattern (bpre ++ bsuf) (mpre ++ msuf)) (Z.of_nat (length bpre)) result
    = Some (String.append result (spaced (pattern_tokens bsuf msuf))).
Proof.
  induction bsuf as [| b bsuf IH]; intros [| m msuf] bpre mpre result Hs Hp Hpos;
    cbn [length] in Hs; try discriminate.
  - cbn. rewrite string_append_empty_r. reflexivity.
  - cbn [length PatternUtils.ToString_loop mask bytes].
    destruct (Z.gtb_spec (Z.of_nat (length bpre)) 0) as [_ | Hle]; [| lia].
    rewrite <- Hp at 1. rewrite at_index_middle.
    assert (Hstep :
      forall r, PatternUtils.ToString_loop (length bsuf)
               (mkPattern (bpre ++ b :: bsuf) (mpre ++ m :: msuf))
               (Z.of_nat (length bpre) + 1) r
             = Some (String.append r (spaced (pattern_tokens bsuf msuf)))).
    { intros r.
      replace (bpre ++ b :: bsuf) with ((bpre ++ [b]) ++ bsuf)
        by (rewrite <- app_assoc; reflexivity).
      replace (mpre ++ m :: msuf) with ((mpre ++ [m]) ++ msuf)
        by (rewrite <- app_assoc; reflexivity).
      replace (Z.of_nat (length bpre) + 1) with (Z.of_nat (length (bpre ++ [b])))
        by (rewrite length_app; cbn; lia).
      apply IH.
      - lia.
      - rewrite !length_app. cbn. lia.
      - rewrite length_app. cbn. lia. }
    destruct m; cbv beta iota.
    + rewrite at_index_middle. cbv beta iota. rewrite Hstep.
      cbn [pattern_tokens spaced entry_token]. f_equal.
      rewrite !string_append_assoc. reflexivity.
    + rewrite Hstep.
      cbn [pattern_tokens spaced entry_token]. f_equal.
      rewrite !string_append_assoc. reflexivity.
Qed.

(** The text written for a whole pattern: the tokens separated by single
    blanks. *)
Lemma ToString_text (bs : list Z) (ms : list bool) :
  length ms = length bs ->
  PatternUtils.ToString (mkPattern bs ms)
  = Some match pattern_tokens bs ms with
         | [] => EmptyString
         | t :: ts => String.append t (spaced ts)
         end.
Proof.
  intros Hlen. unfold PatternUtils.ToString, Size. cbn [bytes]. rewrite Nat2Z.id.
  destruct bs as [| b bs], ms as [| m ms]; try discriminate; [reflexivity |].
  cbn [length] in Hlen.
  cbn [length PatternUtils.ToString_loop mask bytes Z.gtb Z.compare].
  change (at_index (m :: ms) 0) with (Some m).
  assert (Hrest : forall r,
    PatternUtils.ToString_loop (length bs) (mkPattern (b :: bs) (m :: ms)) (0 + 1) r
    = Some (String.append r (spaced (pattern_tokens bs ms)))).
  { intros r.
    apply (ToString_loop_spaced bs ms [b] [m] r); cbn; lia. }
  destruct m; cbv beta iota.
  - change (at_index (b :: bs) 0) with (Some b). cbv beta iota.
    rewrite Hrest. reflexivity.
  - rewrite Hrest. reflexivity.
Qed.

(** ** Reading the written text back *)

Lemma read_tokens_word (t : string) :
  PatternUtils.string_forallb no_space t = true ->
  forall rest cur,
    read_tokens (String.append t rest) cur = read_tokens rest (String.append cur t).
Proof.
  induction t as [| c t IH]; intros Ht rest cur.
  - cbn. rewrite string_append_empty_r. reflexivity.
  - cbn [PatternUtils.string_forallb] in Ht.
    apply andb_true_iff in Ht. destruct Ht as [Hc Ht].
    unfold no_space in Hc. apply negb_true_iff in Hc.
    cbn [String.append read_tokens]. rewrite Hc.
    rewrite (IH Ht). rewrite string_append_assoc. reflexivity.
Qed.

Lemma read_tokens_spaced (ts : list string) :
  Forall (fun t => is_empty t = false
                   /\ PatternUtils.string_forallb no_space t = true) ts ->
  forall cur,
    read_tokens (spaced ts) cur = if is_empty cur then ts else cur :: ts.
Proof.
  induction ts as [| t ts IH]; intros Hts cur; [reflexivity |].
  inversion Hts as [| ? ? [Hne Hsp] Hrest]; subst.
  cbn [spaced read_tokens].
  change (isspace " ") with true. cbv iota.
  rewrite (read_tokens_word t Hsp). cbn [String.append].
  rewrite (IH Hrest). rewrite Hne.
  destruct (is_empty cur); reflexivity.
Qed.

Lemma tokens_of_text (t : string) (ts : list string) :
  Forall (fun t => is_empty t = false
                   /\ PatternUtils.string_forallb no_space t = true) (t :: ts) ->
  tokens (String.append t (spaced ts)) = t :: ts.
Proof.
  intros Hall. inversion Hall as [| ? ? [Hne Hsp] Hrest]; subst.
  unfold tokens. rewrite (read_tokens_word t Hsp). cbn [String.append].
  rewrite (read_tokens_spaced ts Hrest). rewrite Hne. reflexivity.
Qed.

Lemma byte_cases (P : Z -> bool) :
  forallb P (map Z.of_nat (seq 0 256)) = true ->
  forall b, is_byte b -> P b = true.
Proof.
  intros Hall b [Hlo Hhi]. rewrite forallb_forall in Hall. apply Hall.
  apply in_map_iff. exists (Z.to_nat b). split; [lia |].
  apply in_seq. lia.
Qed.

Lemma hex2_reads_back_all (dm : DataModel) (b : Z) :
  is_byte b -> hex2_reads_back dm b = true.
Proof.
  apply byte_cases. destruct dm; vm_compute; reflexivity.
Qed.

Lemma hex2_facts (dm : DataModel) (b : Z) :
  is_byte b ->
  is_wildcard (PatternUtils.hex2 b) = false
  /\ stoul16 dm (PatternUtils.hex2 b) = Some b
  /\ PatternUtils.string_forallb no_space (PatternUtils.hex2 b) = true
  /\ PatternUtils.string_forallb PatternUtils.is_hex_char (PatternUtils.hex2 b) = true.
Proof.
  intros Hb. pose proof (hex2_reads_back_all dm b Hb) as H.
  unfold hex2_reads_back in H.
  apply andb_true_iff in H. destruct H as [H Hhex].
  apply andb_true_iff in H. destruct H as [H Hsp].
  apply andb_true_iff in H. destruct H as [Hw Hst].
  apply negb_true_iff in Hw.
  destruct (stoul16 dm (PatternUtils.hex2 b)) as [v |]; [| discriminate].
  apply Z.eqb_eq in Hst. subst v. auto.
Qed.

Lemma pattern_tokens_words (bs : list Z) :
  forall ms,
    canonical_entries bs ms ->
    Forall (fun t => is_empty t = false
                     /\ PatternUtils.string_forallb no_space t = true)
      (pattern_tokens bs ms).
Proof.
  induction bs as [| b bs IH]; intros [| m ms] Hc; cbn in *;
    try contradiction; constructor.
  - destruct Hc as [Hb _]. destruct m; cbn [entry_token].
    + destruct (hex2_facts LP64 b Hb) as [_ [_ [Hsp _]]].
      split; [reflexivity | exact Hsp].
    + split; reflexivity.
  - destruct Hc as [_ Hc]. apply IH. exact Hc.
Qed.

Lemma Pattern_read_pattern_tokens (dm : DataModel) (bs : list Z) :
  forall ms acc,
    canonical_entries bs ms ->
    Pattern_read dm (pattern_tokens bs ms) acc
    = mkPattern (bytes acc ++ bs) (mask acc ++ ms).
Proof.
  induction bs as [| b bs IH]; intros [| m ms] acc Hc; cbn in Hc;
    try contradiction.
  - cbn. rewrite !app_nil_r. destruct acc; reflexivity.
  - destruct Hc as [Hb Hc]. cbn [pattern_tokens Pattern_read].
    destruct m; cbn [entry_token].
    + destruct (hex2_facts dm b Hb) as [Hw [Hst _]].
      rewrite Hw, Hst. rewrite (IH ms _ Hc). cbn [bytes mask].
      rewrite Z.mod_small by exact Hb.
      rewrite <- !app_assoc. reflexivity.
    + change (is_wildcard "??") with true. cbv iota.
      rewrite (IH ms _ Hc). cbn [bytes mask]. subst b.
      rewrite <- !app_assoc. reflexivity.
Qed.

(** X5. Round trip: for a pattern as the string constructor builds them
    (equal lengths, bytes in 0..255, [00] under wildcards) [ToString]
    succeeds, and the constructor rebuilds the same pattern from its text. *)
Theorem ToString_round_trip (dm : DataModel) (p : Pattern) :
  canonical p ->
  exists s,
    PatternUtils.ToString p = Some s
    /\ Pattern_of_string dm s = p.
Proof.
  destruct p as [bs ms]. unfold canonical. cbn [bytes mask]. intros Hc.
  pose proof (canonical_entries_length bs ms Hc) as Hlen.
  rewrite (ToString_text bs ms Hlen). eexists. split; [reflexivity |].
  unfold Pattern_of_string.
  pose proof (pattern_tokens_words bs ms Hc) as Hwords.
  pose proof (Pattern_read_pattern_tokens dm bs ms Pattern_empty Hc) as Hread.
  destruct (pattern_tokens bs ms) as [| t ts] eqn:Htoks.
  - destruct bs as [| b bs], ms as [| m ms]; cbn in Htoks, Hc;
      try contradiction; try discriminate. reflexivity.
  - rewrite (tokens_of_text t ts Hwords). exact Hread.
Qed.

Lemma ToString_round_trip_witness :
  exists s,
    PatternUtils.ToString (mkPattern [72; 139; 5; 0; 255] [true; true; true; false; true])
    = Some s
    /\ Pattern_of_string LLP64 s
       = mkPattern [72; 139; 5; 0; 255] [true; true; true; false; true].
Proof.
  apply (ToString_round_trip LLP64
           (mkPattern [72; 139; 5; 0; 255] [true; true; true; false; true])).
  unfold canonical, is_byte. cbn. repeat split; lia.
Defined.

Lemma IsValidPatternString_loop_pattern_tokens (dm : DataModel) (bs : list Z) :
  forall ms,
    canonical_entries bs ms ->
    PatternUtils.IsValidPatternString_loop dm (pattern_tokens bs ms) = true.
Proof.
  induction bs as [| b bs IH]; intros [| m ms] Hc; cbn in Hc;
    try contradiction; [reflexivity |].
  destruct Hc as [Hb Hc]. cbn [pattern_tokens PatternUtils.IsValidPatternString_loop].
  destruct m; cbn [entry_token].
  - destruct (hex2_facts dm b Hb) as [Hw [Hst [_ Hhex]]].
    rewrite Hw, Hst, Hhex. cbn [String.length PatternUtils.hex2 negb].
    change ((Z.of_nat 2 =? 0) || (Z.of_nat 2 >? 3)) with false. cbv iota.
    destruct (Z.gtb_spec b 255); [unfold is_byte in Hb; lia |].
    apply IH. exact Hc.
  - change (is_wildcard "??") with true. cbv iota. apply IH. exact Hc.
Qed.

(** X6. The text [ToString] writes for a non-empty pattern of that kind is
    accepted by [IsValidPatternString]. *)
Theorem ToString_is_valid_pattern_string (dm : DataModel) (p : Pattern) :
  canonical p ->
  0 < Size p ->
  exists s,
    PatternUtils.ToString p = Some s
    /\ PatternUtils.IsValidPatternString dm s = true.
Proof.
  destruct p as [bs ms]. unfold canonical, Size. cbn [bytes mask]. intros Hc Hpos.
  pose proof (canonical_entries_length bs ms Hc) as Hlen.
  rewrite (ToString_text bs ms Hlen). eexists. split; [reflexivity |].
  pose proof (pattern_tokens_words bs ms Hc) as Hwords.
  pose proof (IsValidPatternString_loop_pattern_tokens dm bs ms Hc) as Hloop.
  destruct (pattern_tokens bs ms) as [| t ts] eqn:Htoks.
  - destruct bs as [| b bs], ms as [| m ms]; cbn in Htoks, Hc, Hpos;
      try contradiction; try discriminate; lia.
  - unfold PatternUtils.IsValidPatternString.
    rewrite (tokens_of_text t ts Hwords), Hloop.
    inversion Hwords as [| ? ? [Hne _] _]; subst.
    destruct t; [discriminate Hne | reflexivity].
Qed.

Lemma ToString_is_valid_pattern_string_witness :
  exists s,
    PatternUtils.ToString (mkPattern [222; 0; 190; 239] [true; false; true; true])
    = Some s
    /\ PatternUtils.IsValidPatternString LLP64 s = true.
Proof.
  apply (ToString_is_valid_pattern_string LLP64
           (mkPattern [222; 0; 190; 239] [true; false; true; true])).
  - unfold canonical, is_byte. cbn. repeat split; lia.
  - reflexivity.
Defined.

(** ** FromIDAPattern *)

Lemma replace_char_no_qmark (s : string) :
  no_qmark (PatternUtils.replace_char "?" " " s) = true.
Proof.
  unfold no_qmark.
  induction s as [| c s IH]; [reflexivity |].
  cbn [PatternUtils.replace_char PatternUtils.string_forallb].
  rewrite IH, andb_true_r.
  destruct (Ascii.eqb c "?") eqn:Hc; [reflexivity |].
  rewrite Hc. reflexivity.
Qed.

Lemma no_qmark_get (s : string) :
  no_qmark s = true -> forall k, String.get k s <> Some "?"%char.
Proof.
  unfold no_qmark.
  induction s as [| c s IH]; intros Hs k; [destruct k; discriminate |].
  cbn [PatternUtils.string_forallb] in Hs.
  apply andb_true_iff in Hs. destruct Hs as [Hc Hs].
  destruct k as [| k]; cbn [String.get].
  - intros Heq. injection Heq as ->. discriminate Hc.
  - apply IH. exact Hs.
Qed.

Lemma index_no_qmark (s : string) (n : nat) :
  no_qmark s = true -> String.index n "? " s = None.
Proof.
  intros Hs.
  destruct (String.index n "? " s) as [m |] eqn:Hidx; [| reflexivity].
  exfalso. apply index_correct1 in Hidx.
  apply (no_qmark_get s Hs (0 + m)).
  rewrite <- (substring_correct1 s m (String.length "? ") 0) by (cbn; lia).
  rewrite Hidx. reflexivity.
Qed.

Lemma no_qmark_append (a b : string) :
  no_qmark a = true -> no_qmark b = true -> no_qmark (String.append a b) = true.
Proof.
  unfold no_qmark.
  induction a as [| c a IH]; intros Ha Hb; [exact Hb |].
  cbn [String.append PatternUtils.string_forallb] in *.
  apply andb_true_iff in Ha. destruct Ha as [Hc Ha].
  rewrite Hc. cbn [andb]. apply IH; assumption.
Qed.

Lemma read_tokens_no_qmark (s : string) :
  forall cur,
    no_qmark s = true -> no_qmark cur = true ->
    Forall (fun t => no_qmark t = true) (read_tokens s cur).
Proof.
  induction s as [| c s IH]; intros cur Hs Hcur; cbn [read_tokens].
  - destruct (is_empty cur); constructor; [exact Hcur | constructor].
  - unfold no_qmark in Hs. cbn [PatternUtils.string_forallb] in Hs.
    apply andb_true_iff in Hs. destruct Hs as [Hc Hs].
    destruct (isspace c).
    + destruct (is_empty cur).
      * apply IH; [exact Hs | reflexivity].
      * constructor; [exact Hcur |]. apply IH; [exact Hs | reflexivity].
    + apply IH; [exact Hs |].
      apply no_qmark_append; [exact Hcur |].
      unfold no_qmark. cbn. rewrite Hc. reflexivity.
Qed.

Lemma is_wildcard_has_qmark (t : string) :
  no_qmark t = true -> is_wildcard t = false.
Proof.
  intros Ht. unfold is_wildcard.
  destruct (String.eqb_spec t "?") as [-> | _]; [discriminate Ht |].
  destruct (String.eqb_spec t "??") as [-> | _]; [discriminate Ht | reflexivity].
Qed.

Lemma Pattern_read_exact (dm : DataModel) (ts : list string) :
  Forall (fun t => is_wildcard t = false) ts ->
  forall acc,
    forallb (fun m => m) (mask acc) = true ->
    forallb (fun m => m) (mask (Pattern_read dm ts acc)) = true.
Proof.
  induction 1 as [| t ts Ht _ IH]; intros acc Hacc; cbn [Pattern_read];
    [exact Hacc |].
  rewrite Ht.
  destruct (stoul16 dm t) as [v |]; [| reflexivity].
  apply IH. cbn [mask]. rewrite forallb_app, Hacc. reflexivity.
Qed.

(** X7. [FromIDAPattern] never builds a wildcard.  Its first step overwrites
    every ['?'] of the input with a blank, so the loop that would widen
    ["? "] into ["?? "] finds nothing, and the pattern returned is the one
    the constructor builds from the remaining tokens: every mask entry is
    true. *)
Theorem FromIDAPattern_drops_wildcards (dm : DataModel) (s : string) :
  exists p,
    PatternUtils.FromIDAPattern dm s = Some p
    /\ p = Pattern_of_string dm (PatternUtils.replace_char "?" " " s)
    /\ forallb (fun m => m) (mask p) = true.
Proof.
  pose proof (replace_char_no_qmark s) as Hs.
  unfold PatternUtils.FromIDAPattern.
  cbn [PatternUtils.widen_wildcards].
  rewrite (index_no_qmark _ 0 Hs).
  eexists. split; [reflexivity |]. split; [reflexivity |].
  unfold Pattern_of_string. apply Pattern_read_exact; [| reflexivity].
  pose proof (read_tokens_no_qmark _ EmptyString Hs eq_refl) as Htoks.
  fold (tokens (PatternUtils.replace_char "?" " " s)) in Htoks.
  rewrite Forall_forall in *. intros t Hin.
  apply is_wildcard_has_qmark. apply Htoks. exact Hin.
Qed.

(** On the IDA-style pattern of the header's own documentation the four
    wildcards are lost. *)
Example FromIDAPattern_documented_input :
  PatternUtils.FromIDAPattern LLP64 "48 8B 05 ? ? ? ?"
  = Some (mkPattern [72; 139; 5] [true; true; true]).
Proof. reflexivity. Qed.

(** ** SimpleScanner::ScanAll *)

Section SimpleScanAllFacts.

Variable p : Pattern.
Variable d : list Z.
Variables size baseAddress : Z.
Hypothesis Hmask : length (mask p) = length (bytes p).
Hypothesis Hsize : size <= Z.of_nat (length d).

(** The hits appended by the loop entered at offset [i]: exactly the
    matching offsets from [i] on, in ascending order; the first of them is
    what [Scan]'s loop returns. *)
Lemma SimpleScanAll_loop_spec :
  forall (n : nat) (i : Z) (acc : list ScanResult),
    0 <= i -> i + Z.of_nat n = size - Size p + 1 ->
    exists hits,
      SimpleScanner.ScanAll_loop n p d baseAddress i acc = Some (acc ++ hits)
      /\ Forall (reported_hit p d size baseAddress) hits
      /\ Forall (fun r => i <= offset r) hits
      /\ (forall k, i <= k <= size - Size p -> masked_match p d k ->
                    In k (map offset hits))
      /\ StronglySorted Z.lt (map offset hits)
      /\ SimpleScanner.Scan_loop n p d baseAddress i
         = Some (hd ScanResult_none hits).
Proof.
  induction n as [| n IH]; intros i acc Hi Hn.
  - exists []. cbn. rewrite app_nil_r.
    repeat split; try constructor. intros k Hk. lia.
  - cbn [SimpleScanner.ScanAll_loop SimpleScanner.Scan_loop].
    destruct (MatchesPattern_spec p d Hmask i) as [b [Hb Hiff]]; [lia | lia |].
    rewrite Hb.
    destruct b.
    + destruct (IH (i + 1)
                  (acc ++ [ScanResult_at (wrap64 (baseAddress + i)) i]))
        as [hits [Hrun [Hhits [Hlow [Hall [Hsorted _]]]]]]; [lia | lia |].
      exists (ScanResult_at (wrap64 (baseAddress + i)) i :: hits).
      split; [rewrite Hrun, <- app_assoc; reflexivity |].
      split.
      { constructor; [| exact Hhits].
        unfold reported_hit. cbn. repeat split; try lia.
        apply Hiff. reflexivity. }
      split.
      { constructor; [cbn; lia |].
        eapply Forall_impl; [| exact Hlow]. cbn. intros r Hr. lia. }
      split.
      { intros k Hk Hmk. cbn.
        destruct (Z.eq_dec k i) as [-> | Hne]; [left; reflexivity |].
        right. apply Hall; [lia | exact Hmk]. }
      split; [| reflexivity].
      cbn. constructor; [exact Hsorted |].
      rewrite Forall_map. eapply Forall_impl; [| exact Hlow].
      cbn. intros r Hr. lia.
    + destruct (IH (i + 1) acc)
        as [hits [Hrun [Hhits [Hlow [Hall [Hsorted Hscan]]]]]]; [lia | lia |].
      exists hits.
      split; [exact Hrun |]. split; [exact Hhits |].
      split.
      { eapply Forall_impl; [| exact Hlow]. cbn. intros r Hr. lia. }
      split.
      { intros k Hk Hmk.
        destruct (Z.eq_dec k i) as [-> | Hne].
        - apply Hiff in Hmk. discriminate Hmk.
        - apply Hall; [lia | exact Hmk]. }
      split; [exact Hsorted | exact Hscan].
Qed.

End SimpleScanAllFacts.

(** X8. For a valid pattern and a buffer of at least [size] bytes with
    [size >= pattern.Size()], [SimpleScanner::ScanAll] returns exactly the
    offsets of [[0, size - pattern.Size()]] at which the masked match holds,
    overlapping ones included, in strictly ascending order, each flagged as
    found and with address [baseAddress + offset]. *)
Theorem SimpleScanner_ScanAll_complete
    (p : Pattern) (d : list Z) (size baseAddress : Z) :
  IsValid p = true ->
  readable (Some d) size ->
  Size p <= size ->
  exists hits,
    SimpleScanner.ScanAll p (Some d) size baseAddress = Some hits
    /\ Forall (reported_hit p d size baseAddress) hits
    /\ (forall k, 0 <= k <= size - Size p -> masked_match p d k ->
                  In k (map offset hits))
    /\ StronglySorted Z.lt (map offset hits).
Proof.
  intros Hv Hread Hfit. cbn in Hread.
  destruct (IsValid_true p Hv) as [Hm Hmask].
  unfold SimpleScanner.ScanAll. rewrite Hv. cbn [negb].
  destruct (Z.ltb_spec size (Size p)) as [Hlt | _]; [lia |].
  destruct (SimpleScanAll_loop_spec p d size baseAddress Hmask Hread
              (Z.to_nat (size - Size p + 1)) 0 [])
    as [hits [Hrun [Hhits [_ [Hall [Hsorted _]]]]]]; [lia | lia |].
  exists hits. cbn [app] in Hrun. auto.
Qed.

Lemma SimpleScanner_ScanAll_complete_witness :
  exists hits,
    SimpleScanner.ScanAll (Pattern_of_string LLP64 "AA ?") (Some [170; 170; 170])
      3 4096
    = Some hits
    /\ Forall (reported_hit (Pattern_of_string LLP64 "AA ?") [170; 170; 170] 3 4096)
         hits
    /\ (forall k, 0 <= k <= 3 - Size (Pattern_of_string LLP64 "AA ?") ->
                  masked_match (Pattern_of_string LLP64 "AA ?") [170; 170; 170] k ->
                  In k (map offset hits))
    /\ StronglySorted Z.lt (map offset hits).
Proof.
  apply (SimpleScanner_ScanAll_complete (Pattern_of_string LLP64 "AA ?")
           [170; 170; 170] 3 4096).
  - reflexivity.
  - cbn. lia.
  - vm_compute. discriminate.
Defined.

(** X9. [Scan] is the head of [ScanAll]: on any pattern and any buffer of at
    least [size] bytes (or the null pointer), [SimpleScanner::Scan] returns
    the first element of what [SimpleScanner::ScanAll] returns, and the
    not-found result when that list is empty. *)
Theorem SimpleScanner_Scan_is_first_of_ScanAll
    (p : Pattern) (data : option (list Z)) (size baseAddress : Z) :
  readable data size ->
  exists hits,
    SimpleScanner.ScanAll p data size baseAddress = Some hits
    /\ SimpleScanner.Scan p data size baseAddress
       = Some (hd (mkScanResult 0 0 false) hits).
Proof.
  intros Hread.
  unfold SimpleScanner.ScanAll, SimpleScanner.Scan.
  destruct (IsValid p) eqn:Hv; cbn [negb]; [| exists []; split; reflexivity].
  destruct data as [d |]; [| exists []; split; reflexivity].
  destruct (Z.ltb_spec size (Size p)) as [Hlt | Hge];
    [exists []; split; reflexivity |].
  destruct (IsValid_true p Hv) as [Hm Hmask]. cbn in Hread.
  destruct (SimpleScanAll_loop_spec p d size baseAddress Hmask Hread
              (Z.to_nat (size - Size p + 1)) 0 [])
    as [hits [Hrun [_ [_ [_ [_ Hscan]]]]]]; [lia | lia |].
  exists hits. cbn [app] in Hrun. split; assumption.
Qed.

Lemma SimpleScanner_Scan_is_first_of_ScanAll_witness :
  exists hits,
    SimpleScanner.ScanAll (Pattern_of_string LLP64 "48 8B 05") (Some demo_buffer)
      29 5368713216
    = Some hits
    /\ SimpleScanner.Scan (Pattern_of_string LLP64 "48 8B 05") (Some demo_buffer)
         29 5368713216
       = Some (hd (mkScanResult 0 0 false) hits).
Proof.
  apply (SimpleScanner_Scan_is_first_of_ScanAll
           (Pattern_of_string LLP64 "48 8B 05") (Some demo_buffer) 29 5368713216).
  cbn. lia.
Defined.

(** ** BoyerMooreScanner: tables *)

Lemma at_index_in_range {A : Type} (v : list A) (i : Z) :
  0 <= i < Z.of_nat (length v) -> exists x, at_index v i = Some x /\ In x v.
Proof.
  intros Hi. unfold at_index.
  destruct (Z.ltb_spec i 0); [lia |].
  destruct (nth_error v (Z.to_nat i)) as [x |] eqn:Hx.
  - exists x. split; [reflexivity |]. eapply nth_error_In. exact Hx.
  - apply nth_error_None in Hx. lia.
Qed.

Lemma Forall_list_set {A : Type} (P : A -> Prop) (v : list A) (n : nat) (x : A) :
  Forall P v -> P x -> Forall P (list_set v n x).
Proof.
  intros Hv Hx. revert n.
  induction Hv as [| h t Hh Ht IH]; intros [| n]; cbn; constructor; auto.
Qed.

Lemma Forall_repeat {A : Type} (P : A -> Prop) (x : A) (n : nat) :
  P x -> Forall P (repeat x n).
Proof.
  intros Hx. induction n; cbn; constructor; auto.
Qed.

Lemma BuildBadCharTable_loop_in_range (p : Pattern) :
  length (mask p) = length (bytes p) ->
  Forall is_byte (bytes p) ->
  forall (n : nat) (i : Z) (tbl : list Z),
    0 <= i -> i + Z.of_nat n = Size p - 1 ->
    length tbl = 256%nat ->
    Forall (shift_in_range (Size p)) tbl ->
    exists tbl',
      BoyerMooreScanner.BuildBadCharTable_loop n p i tbl = Some tbl'
      /\ length tbl' = 256%nat
      /\ Forall (shift_in_range (Size p)) tbl'.
Proof.
  intros Hmask Hbytes. unfold Size.
  induction n as [| n IH]; intros i tbl Hi Hn Hlen Htbl.
  - exists tbl. cbn. auto.
  - cbn [BoyerMooreScanner.BuildBadCharTable_loop].
    rewrite (at_index_nth (mask p) i false) by lia.
    destruct (nth (Z.to_nat i) (mask p) false).
    + destruct (at_index_in_range (bytes p) i) as [b [Hb Hin]]; [lia |].
      rewrite Hb.
      rewrite Forall_forall in Hbytes. specialize (Hbytes b Hin).
      unfold is_byte in Hbytes. unfold set_index.
      destruct (Z.leb_spec 0 b); [| lia].
      destruct (Z.ltb_spec b (Z.of_nat (length tbl))); [| lia].
      cbn [andb]. unfold Size.
      apply IH; try lia.
      * rewrite length_list_set. exact Hlen.
      * apply Forall_list_set; [exact Htbl |]. unfold shift_in_range, Size. lia.
    + apply IH; try lia; assumption.
Qed.

(** The constructor succeeds on every valid pattern of bytes, and leaves
    tables of shifts between 1 and the pattern length. *)
Lemma make_tables_in_range (behind : Z) (p : Pattern) :
  IsValid p = true ->
  Forall is_byte (bytes p) ->
  exists sc,
    BoyerMooreScanner.make behind p = Some sc
    /\ BoyerMooreScanner.pattern_ sc = p
    /\ tables_in_range sc.
Proof.
  intros Hv Hbytes.
  destruct (IsValid_true p Hv) as [Hm Hmask].
  unfold BoyerMooreScanner.make. rewrite Hv.
  destruct (BuildBadCharTable_loop_in_range p Hmask Hbytes
              (Z.to_nat (Size p - 1)) 0 (repeat (Size p) 256))
    as [bad [Hbad [Hlen Hrange]]].
  - lia.
  - lia.
  - apply repeat_length.
  - apply Forall_repeat. unfold shift_in_range. lia.
  - unfold BoyerMooreScanner.BuildBadCharTable. rewrite Hbad.
    destruct (GoodSuffix_table_shape behind p Hv) as [st [Hrun Htable]].
    rewrite Hrun. eexists. split; [reflexivity |]. split; [reflexivity |].
    unfold tables_in_range.
    cbn [BoyerMooreScanner.pattern_ BoyerMooreScanner.badCharTable_
         BoyerMooreScanner.goodSuffixTable_].
    rewrite Htable.
    split; [exact Hlen |]. split; [exact Hrange |].
    split; [rewrite length_list_set, repeat_length; lia |].
    apply Forall_list_set; [apply Forall_repeat |]; unfold shift_in_range; lia.
Qed.

(** ** BoyerMooreScanner: the scans *)

Section BoyerMooreFacts.

Variable sc : BoyerMooreScanner.t.
Variable d : list Z.
Variables size baseAddress : Z.

Let p : Pattern := BoyerMooreScanner.pattern_ sc.

Hypothesis Hmask : length (mask p) = length (bytes p).
Hypothesis Hpos : 0 < Size p.
Hypothesis Htables : tables_in_range sc.
Hypothesis Hbuffer : Forall is_byte d.
Hypothesis Hsize : size <= Z.of_nat (length d).
Hypothesis Hword : size < 2 ^ 64.

(** The right-to-left comparison stops at [-1] exactly on a masked match of
    the last [n] positions examined, and otherwise at a must-match position
    that differs. *)
Lemma compare_right_to_left_spec (shift : Z) :
  0 <= shift -> shift + Size p <= Z.of_nat (length d) ->
  forall n : nat,
    Z.of_nat n <= Size p ->
    exists j,
      BoyerMooreScanner.compare_right_to_left n p d shift = Some j
      /\ -1 <= j < Z.of_nat n
      /\ (j = -1 ->
          forall k, 0 <= k < Z.of_nat n ->
            nth (Z.to_nat k) (mask p) false = true ->
            nth (Z.to_nat (shift + k)) d 0 = nth (Z.to_nat k) (bytes p) 0)
      /\ (0 <= j ->
          nth (Z.to_nat j) (mask p) false = true
          /\ nth (Z.to_nat (shift + j)) d 0 <> nth (Z.to_nat j) (bytes p) 0).
Proof.
  intros Hshift Hfit. unfold Size in *.
  induction n as [| n IH]; intros Hn.
  - exists (-1). cbn. repeat split; intros; lia.
  - cbn [BoyerMooreScanner.compare_right_to_left].
    rewrite (at_index_nth (mask p) (Z.of_nat n) false) by lia.
    destruct IH as [j [Hj [Hrange [Hall Hmis]]]]; [lia |].
    destruct (nth (Z.to_nat (Z.of_nat n)) (mask p) false) eqn:Hm; cbn [negb].
    + rewrite (at_index_nth (bytes p) (Z.of_nat n) 0) by lia.
      rewrite (at_index_nth d (shift + Z.of_nat n) 0) by lia.
      destruct (Z.eqb_spec (nth (Z.to_nat (Z.of_nat n)) (bytes p) 0)
                           (nth (Z.to_nat (shift + Z.of_nat n)) d 0))
        as [Heq | Hne].
      * exists j. split; [exact Hj |]. split; [lia |]. split; [| exact Hmis].
        intros Hj1 k Hk Hmk.
        destruct (Z.eq_dec k (Z.of_nat n)) as [-> | Hkn]; [congruence |].
        apply Hall; [exact Hj1 | lia | exact Hmk].
      * exists (Z.of_nat n). split; [reflexivity |]. split; [lia |].
        split; [lia |]. intros _. split; [exact Hm | congruence].
    + exists j. split; [exact Hj |]. split; [lia |]. split; [| exact Hmis].
      intros Hj1 k Hk Hmk.
      destruct (Z.eq_dec k (Z.of_nat n)) as [-> | Hkn]; [congruence |].
      apply Hall; [exact Hj1 | lia | exact Hmk].
Qed.

Lemma compare_full (shift : Z) :
  0 <= shift <= size - Size p ->
  exists j,
    BoyerMooreScanner.compare_right_to_left (Z.to_nat (Size p)) p d shift = Some j
    /\ -1 <= j < Size p
    /\ (j < 0 -> masked_match p d shift)
    /\ (0 <= j -> ~ masked_match p d shift).
Proof.
  intros Hshift.
  destruct (compare_right_to_left_spec shift) with (n := Z.to_nat (Size p))
    as [j [Hj [Hrange [Hall Hmis]]]]; [lia | lia | lia |].
  exists j. split; [exact Hj |]. split; [lia |]. split.
  - intros Hneg k Hk Hmk. apply Hall; [lia | lia | exact Hmk].
  - intros Hj0 Hmatch. destruct (Hmis Hj0) as [Hm Hne].
    apply Hne. apply Hmatch; [lia | exact Hm].
Qed.

(** After a mismatch the scanner moves forward, by at most the pattern
    length. *)
Lemma mismatch_shift_in_range (shift j : Z) :
  0 <= shift <= size - Size p -> 0 <= j < Size p ->
  exists s,
    BoyerMooreScanner.mismatch_shift sc d shift j = Some s
    /\ shift_in_range (Size p) s.
Proof.
  intros Hshift Hj.
  destruct Htables as [Hblen [Hbad [Hglen Hgs]]]. fold p in Hbad, Hglen, Hgs.
  unfold BoyerMooreScanner.mismatch_shift. fold p.
  destruct (at_index_in_range d (shift + j)) as [x [Hx Hxin]]; [lia |].
  rewrite Hx.
  rewrite Forall_forall in Hbuffer. specialize (Hbuffer x Hxin).
  unfold is_byte in Hbuffer.
  destruct (at_index_in_range (BoyerMooreScanner.badCharTable_ sc) x)
    as [bc [Hbc Hbcin]]; [lia |].
  rewrite Hbc.
  destruct (at_index_in_range (BoyerMooreScanner.goodSuffixTable_ sc) j)
    as [g [Hg Hgin]]; [lia |].
  rewrite Hg.
  rewrite Forall_forall in Hbad, Hgs.
  specialize (Hbad bc Hbcin). specialize (Hgs g Hgin).
  unfold shift_in_range in *.
  eexists. split; [reflexivity |].
  destruct (Z.gtb_spec (bc - Size p + 1 + j) g); lia.
Qed.

Lemma wrap64_small (z : Z) : 0 <= z <= size -> wrap64 z = z.
Proof.
  intros Hz. unfold wrap64. apply Z.mod_small. lia.
Qed.

(** [Scan]'s loop returns, and what it returns is the not-found result or a
    hit. *)
Lemma BoyerMoore_Scan_loop_sound :
  forall (fuel : nat) (shift : Z),
    0 <= shift ->
    (Z.to_nat (size - Size p + 1 - shift) <= fuel)%nat ->
    exists r,
      BoyerMooreScanner.Scan_loop fuel sc d size baseAddress shift = Some r
      /\ (r = ScanResult_none \/ reported_hit p d size baseAddress r).
Proof.
  induction fuel as [| fuel IH]; intros shift Hshift Hfuel.
  - cbn [BoyerMooreScanner.Scan_loop]. fold p.
    destruct (Z.leb_spec shift (size - Size p)); [lia |].
    eexists. split; [reflexivity | left; reflexivity].
  - cbn [BoyerMooreScanner.Scan_loop]. fold p.
    destruct (Z.leb_spec shift (size - Size p)) as [Hin | Hout];
      [| eexists; split; [reflexivity | left; reflexivity]].
    destruct (compare_full shift) as [j [Hj [Hrange [Hhit _]]]]; [lia |].
    rewrite Hj.
    destruct (Z.ltb_spec j 0) as [Hneg | Hnonneg].
    + eexists. split; [reflexivity |]. right.
      unfold reported_hit. cbn. repeat split; try lia. apply Hhit. exact Hneg.
    + destruct (mismatch_shift_in_range shift j) as [s [Hs Hsr]]; [lia | lia |].
      rewrite Hs. unfold shift_in_range in Hsr.
      rewrite wrap64_small by lia.
      apply IH; lia.
Qed.




End BoyerMooreFacts.

(** X10. The bad-character table of a valid pattern of bytes has 256
    entries.  The entry of a byte [c] is [m - 1 - k] for the right-most
    must-match position [k < m - 1] that holds [c], and the pattern length
    [m] when no such position holds it: wildcard positions and the last
    position never enter the table. *)
Theorem BuildBadCharTable_entries (p : Pattern) :
  IsValid p = true ->
  Forall is_byte (bytes p) ->
  exists tbl,
    BoyerMooreScanner.BuildBadCharTable p = Some tbl
    /\ length tbl = 256%nat
    /\ forall c, is_byte c ->
         (forall k,
             0 <= k < Size p - 1 ->
             nth (Z.to_nat k) (mask p) false = true ->
             nth (Z.to_nat k) (bytes p) 0 = c ->
             (forall k', k < k' < Size p - 1 ->
                         nth (Z.to_nat k') (mask p) false = true ->
                         nth (Z.to_nat k') (bytes p) 0 <> c) ->
             nth (Z.to_nat c) tbl 0 = Size p - 1 - k)
         /\ ((forall k, 0 <= k < Size p - 1 ->
                        nth (Z.to_nat k) (mask p) false = true ->
                        nth (Z.to_nat k) (bytes p) 0 <> c) ->
             nth (Z.to_nat c) tbl 0 = Size p).
Proof.
  intros Hv Hbytes. destruct (IsValid_true p Hv) as [Hm Hmask].
  assert (Hloop :
    forall (n : nat) (i : Z) (tbl : list Z),
      0 <= i -> i + Z.of_nat n = Size p - 1 ->
      length tbl = 256%nat ->
      (forall c, is_byte c ->
         (forall k, 0 <= k < i ->
            nth (Z.to_nat k) (mask p) false = true ->
            nth (Z.to_nat k) (bytes p) 0 = c ->
            (forall k', k < k' < i ->
                        nth (Z.to_nat k') (mask p) false = true ->
                        nth (Z.to_nat k') (bytes p) 0 <> c) ->
            nth (Z.to_nat c) tbl 0 = Size p - 1 - k)
         /\ ((forall k, 0 <= k < i ->
                        nth (Z.to_nat k) (mask p) false = true ->
                        nth (Z.to_nat k) (bytes p) 0 <> c) ->
             nth (Z.to_nat c) tbl 0 = Size p)) ->
      exists tbl',
        BoyerMooreScanner.BuildBadCharTable_loop n p i tbl = Some tbl'
        /\ length tbl' = 256%nat
        /\ forall c, is_byte c ->
             (forall k, 0 <= k < Size p - 1 ->
                nth (Z.to_nat k) (mask p) false = true ->
                nth (Z.to_nat k) (bytes p) 0 = c ->
                (forall k', k < k' < Size p - 1 ->
                            nth (Z.to_nat k') (mask p) false = true ->
                            nth (Z.to_nat k') (bytes p) 0 <> c) ->
                nth (Z.to_nat c) tbl' 0 = Size p - 1 - k)
             /\ ((forall k, 0 <= k < Size p - 1 ->
                            nth (Z.to_nat k) (mask p) false = true ->
                            nth (Z.to_nat k) (bytes p) 0 <> c) ->
                 nth (Z.to_nat c) tbl' 0 = Size p)).
  { induction n as [| n IH]; intros i tbl Hi Hn Hlen Hinv.
    - exists tbl. split; [reflexivity |]. split; [exact Hlen |].
      assert (Hend : i = Size p - 1) by lia. subst i. exact Hinv.
    - cbn [BoyerMooreScanner.BuildBadCharTable_loop].
      rewrite (at_index_nth (mask p) i false) by (unfold Size in *; lia).
      destruct (nth (Z.to_nat i) (mask p) false) eqn:Hmi.
      + rewrite (at_index_nth (bytes p) i 0) by (unfold Size in *; lia).
        set (b := nth (Z.to_nat i) (bytes p) 0) in *.
        assert (Hb : is_byte b).
        { rewrite Forall_forall in Hbytes. apply Hbytes. unfold b.
          apply nth_In. unfold Size in *. lia. }
        unfold is_byte in Hb. unfold set_index.
        destruct (Z.leb_spec 0 b); [| lia].
        destruct (Z.ltb_spec b (Z.of_nat (length tbl))); [| lia].
        cbn [andb].
        apply IH; [lia | lia | rewrite length_list_set; exact Hlen |].
        intros c Hc. unfold is_byte in Hc.
        destruct (Hinv c Hc) as [HA HB].
        destruct (Z.eq_dec c b) as [-> | Hcb].
        * rewrite nth_list_set_same by lia. split.
          -- intros k Hk Hmk Hbk Hright.
             destruct (Z.eq_dec k i) as [-> | Hki]; [reflexivity |].
             exfalso. apply (Hright i); [lia | exact Hmi | reflexivity].
          -- intros Hnone. exfalso. apply (Hnone i); [lia | exact Hmi | reflexivity].
        * rewrite nth_list_set_other by lia. split.
          -- intros k Hk Hmk Hbk Hright.
             destruct (Z.eq_dec k i) as [-> | Hki];
               [exfalso; apply Hcb; symmetry; exact Hbk |].
             apply HA; [lia | exact Hmk | exact Hbk |].
             intros k' Hk'. apply Hright. lia.
          -- intros Hnone. apply HB. intros k Hk. apply Hnone. lia.
      + apply IH; [lia | lia | exact Hlen |].
        intros c Hc. destruct (Hinv c Hc) as [HA HB]. split.
        * intros k Hk Hmk Hbk Hright.
          destruct (Z.eq_dec k i) as [-> | Hki]; [congruence |].
          apply HA; [lia | exact Hmk | exact Hbk |].
          intros k' Hk'. apply Hright. lia.
        * intros Hnone. apply HB. intros k Hk. apply Hnone. lia. }
  unfold BoyerMooreScanner.BuildBadCharTable.
  apply Hloop; [lia | lia | apply repeat_length |].
  intros c Hc. unfold is_byte in Hc. split.
  - intros k Hk. lia.
  - intros _. apply nth_repeat_lt. lia.
Qed.

Lemma BuildBadCharTable_entries_witness :
  exists tbl,
    BoyerMooreScanner.BuildBadCharTable (Pattern_of_string LLP64 "DE ?? DE EF")
    = Some tbl
    /\ length tbl = 256%nat
    /\ forall c, is_byte c ->
         (forall k,
             0 <= k < Size (Pattern_of_string LLP64 "DE ?? DE EF") - 1 ->
             nth (Z.to_nat k) (mask (Pattern_of_string LLP64 "DE ?? DE EF")) false
             = true ->
             nth (Z.to_nat k) (bytes (Pattern_of_string LLP64 "DE ?? DE EF")) 0 = c ->
             (forall k', k < k' < Size (Pattern_of_string LLP64 "DE ?? DE EF") - 1 ->
                nth (Z.to_nat k') (mask (Pattern_of_string LLP64 "DE ?? DE EF")) false
                = true ->
                nth (Z.to_nat k') (bytes (Pattern_of_string LLP64 "DE ?? DE EF")) 0
                <> c) ->
             nth (Z.to_nat c) tbl 0
             = Size (Pattern_of_string LLP64 "DE ?? DE EF") - 1 - k)
         /\ ((forall k, 0 <= k < Size (Pattern_of_string LLP64 "DE ?? DE EF") - 1 ->
                nth (Z.to_nat k) (mask (Pattern_of_string LLP64 "DE ?? DE EF")) false
                = true ->
                nth (Z.to_nat k) (bytes (Pattern_of_string LLP64 "DE ?? DE EF")) 0
                <> c) ->
             nth (Z.to_nat c) tbl 0 = Size (Pattern_of_string LLP64 "DE ?? DE EF")).
Proof.
  apply (BuildBadCharTable_entries (Pattern_of_string LLP64 "DE ?? DE EF")).
  - reflexivity.
  - apply (Pattern_of_string_bytes LLP64 "DE ?? DE EF").
Defined.





(** X13. The half of the scanner agreement that holds: whenever
    [BoyerMooreScanner::Scan] reports a hit, [SimpleScanner::Scan] reports
    one too, at the same offset or at an earlier one. *)
Theorem BoyerMoore_hit_implies_Simple_hit
    (behind : Z) (p : Pattern) (d : list Z) (size baseAddress : Z)
    (sc : BoyerMooreScanner.t) (r : ScanResult) :
  IsValid p = true ->
  Forall is_byte (bytes p) ->
  Forall is_byte d ->
  readable (Some d) size ->
  Size p <= size ->
  size < 2 ^ 64 ->
  BoyerMooreScanner.make behind p = Some sc ->
  BoyerMooreScanner.Scan sc (Some d) size baseAddress = Some r ->
  found r = true ->
  exists r',
    SimpleScanner.Scan p (Some d) size baseAddress = Some r'
    /\ found r' = true
    /\ offset r' <= offset r.
Proof.
  intros Hv Hbytes Hbuffer Hread Hfit Hword Hmake Hscan Hfound. cbn in Hread.
  destruct (IsValid_true p Hv) as [Hm Hmask].
  destruct (make_tables_in_range behind p Hv Hbytes) as [sc' [Hmake' [Hp Htables]]].
  assert (sc' = sc) as -> by congruence.
  assert (Hloop : exists r0,
             BoyerMooreScanner.Scan_loop (S (Z.to_nat size)) sc d size baseAddress 0
             = Some r0
             /\ (r0 = ScanResult_none
                 \/ reported_hit (BoyerMooreScanner.pattern_ sc) d size baseAddress r0)).
  { apply BoyerMoore_Scan_loop_sound; rewrite ?Hp; try assumption; lia. }
  destruct Hloop as [r0 [Hr0 Hres]]. rewrite Hp in Hres.
  unfold BoyerMooreScanner.Scan in Hscan. rewrite Hp, Hv in Hscan.
  cbn [negb] in Hscan.
  destruct (Z.ltb_spec size (Size p)); [lia |].
  assert (r0 = r) as -> by congruence.
  destruct Hres as [-> | [_ [Hoff [Hmatch _]]]]; [discriminate Hfound |].
  unfold SimpleScanner.Scan. rewrite Hv. cbn [negb].
  destruct (Z.ltb_spec size (Size p)); [lia |].
  destruct (SimpleScan_loop_spec p d Hmask size baseAddress Hread
              (Z.to_nat (size - Size p + 1)) 0)
    as [[k [Hk [Hmk [Hmin Hsimple]]]] | [Hnone _]]; [lia | lia | |].
  - exists (ScanResult_at (wrap64 (baseAddress + k)) k).
    split; [exact Hsimple |]. split; [reflexivity |]. cbn.
    destruct (Z.le_gt_cases k (offset r)) as [Hle | Hgt]; [exact Hle |].
    exfalso. apply (Hmin (offset r)); [lia | exact Hmatch].
  - exfalso. apply (Hnone (offset r)); [lia | exact Hmatch].
Qed.

Lemma BoyerMoore_hit_implies_Simple_hit_witness :
  exists r',
    SimpleScanner.Scan (Pattern_of_string LLP64 "48 8B 05") (Some demo_buffer)
      29 5368713216
    = Some r'
    /\ found r' = true
    /\ offset r' <= offset (mkScanResult 5368713219 3 true).
Proof.
  apply (BoyerMoore_hit_implies_Simple_hit 0 (Pattern_of_string LLP64 "48 8B 05")
           demo_buffer 29 5368713216
           (BoyerMooreScanner.mkScanner (mkPattern [72; 139; 5] [true; true; true])
              (list_set (list_set (repeat 3 256) 72 2) 139 1) [3; 3; 1])
           (mkScanResult 5368713219 3 true)).
  - reflexivity.
  - apply (Pattern_of_string_bytes LLP64 "48 8B 05").
  - unfold demo_buffer, is_byte. repeat (constructor; [lia |]). constructor.
  - cbn. lia.
  - vm_compute. discriminate.
  - reflexivity.
  - reflexivity.
  - reflexivity.
  - reflexivity.
Defined.



(** ** FuzzyScan: what a result carries *)

Section FuzzyResultFacts.

Import Advanced.

Variable p : Pattern.
Variable d : list Z.
Variable threshold : f32.
Variables size baseAddress : Z.
Hypothesis Hmask : length (mask p) = length (bytes p).
Hypothesis Hsize : size <= Z.of_nat (length d).

Lemma FuzzyScan_loop_result :
  forall (n : nat) (i : Z) (best : f32) (bestOffset : Z),
    0 <= i -> i + Z.of_nat n = size - Size p + 1 ->
    best = f32_zero
    \/ (0 <= bestOffset < i /\ similarity_at p d bestOffset = Some (Some best)) ->
    exists r,
      FuzzyScan_loop n p d threshold baseAddress i best bestOffset = Some r
      /\ (r = FuzzyResult_none
          \/ carries_own_similarity p d threshold size baseAddress r).
Proof.
  induction n as [| n IH]; intros i best bestOffset Hi Hn Hinv.
  - cbn [FuzzyScan_loop].
    destruct (f32_lt f32_zero best) eqn:Hbest;
      eexists; (split; [reflexivity |]); [right | left; reflexivity].
    destruct Hinv as [-> | [Hbo Hsim]]; [discriminate Hbest |].
    unfold carries_own_similarity. cbn.
    split; [reflexivity |]. split; [lia |]. split; [exact Hsim |].
    split; [reflexivity | right; exact Hbest].
  - cbn [FuzzyScan_loop].
    destruct (similarity_at_total p d Hmask i) as [sim Hsim]; [lia | lia |].
    rewrite Hsim. destruct sim as [s |].
    + destruct (f32_le threshold s) eqn:Hle.
      * eexists. split; [reflexivity |]. right.
        unfold carries_own_similarity. cbn.
        split; [reflexivity |]. split; [lia |]. split; [exact Hsim |].
        split; [reflexivity | left; exact Hle].
      * apply IH; [lia | lia |].
        destruct (f32_lt best s).
        -- right. split; [lia | exact Hsim].
        -- destruct Hinv as [-> | [Hbo Hb]]; [left; reflexivity |].
           right. split; [lia | exact Hb].
    + apply IH; [lia | lia |].
      destruct Hinv as [-> | [Hbo Hb]]; [left; reflexivity |].
      right. split; [lia | exact Hb].
Qed.

(** First good enough: the loop returns at the first offset whose
    similarity reaches the threshold. *)
Lemma FuzzyScan_loop_first_reaching (k : Z) (s : f32) :
  similarity_at p d k = Some (Some s) ->
  f32_le threshold s = true ->
  forall (n : nat) (i : Z) (best : f32) (bestOffset : Z),
    0 <= i <= k -> k <= size - Size p ->
    i + Z.of_nat n = size - Size p + 1 ->
    (forall k' s', i <= k' < k -> similarity_at p d k' = Some (Some s') ->
                   f32_le threshold s' = false) ->
    FuzzyScan_loop n p d threshold baseAddress i best bestOffset
    = Some (FuzzyResult_at (wrap64 (baseAddress + k)) k s).
Proof.
  intros Hk Hreach.
  induction n as [| n IH]; intros i best bestOffset Hi Hkr Hn Hbefore; [lia |].
  cbn [FuzzyScan_loop].
  destruct (Z.eq_dec i k) as [-> | Hne].
  - rewrite Hk, Hreach. reflexivity.
  - destruct (similarity_at_total p d Hmask i) as [sim Hsim]; [lia | lia |].
    rewrite Hsim. destruct sim as [s' |].
    + rewrite (Hbefore i s') by (try lia; exact Hsim).
      apply IH; try lia. intros k' s'' Hk'. apply Hbefore. lia.
    + apply IH; try lia. intros k' s'' Hk'. apply Hbefore. lia.
Qed.

End FuzzyResultFacts.

(** X15. For a valid pattern and a buffer of at least [size] bytes with
    [size >= pattern.Size()], [FuzzyScan] never leaves the buffer, whatever
    the threshold.  Its result is the empty one, or it is flagged found,
    lies at a viable offset, carries exactly the similarity computed at that
    offset and the address [baseAddress + offset]; that similarity reaches
    the threshold or is above zero. *)
Theorem FuzzyScan_result_well_formed
    (p : Pattern) (d : list Z) (size : Z) (threshold : Advanced.f32)
    (baseAddress : Z) :
  IsValid p = true ->
  readable (Some d) size ->
  Size p <= size ->
  exists r,
    Advanced.FuzzyScan p (Some d) size threshold baseAddress = Some r
    /\ (r = Advanced.mkFuzzyResult 0 0 (S754_zero false) false
        \/ (Advanced.fz_found r = true
            /\ 0 <= Advanced.fz_offset r <= size - Size p
            /\ Advanced.similarity_at p d (Advanced.fz_offset r)
               = Some (Some (Advanced.similarity r))
            /\ Advanced.fz_address r = wrap64 (baseAddress + Advanced.fz_offset r)
            /\ (Advanced.f32_le threshold (Advanced.similarity r) = true
                \/ Advanced.f32_lt Advanced.f32_zero (Advanced.similarity r) = true))).
Proof.
  intros Hv Hread Hfit. cbn in Hread.
  destruct (IsValid_true p Hv) as [Hm Hmask].
  unfold Advanced.FuzzyScan. rewrite Hv. cbn [negb].
  destruct ((size <? Size p) || Advanced.f32_lt threshold Advanced.f32_zero
            || Advanced.f32_lt Advanced.f32_one threshold).
  - eexists. split; [reflexivity | left; reflexivity].
  - apply (FuzzyScan_loop_result p d threshold size baseAddress Hmask Hread);
      [lia | lia | left; reflexivity].
Qed.

Lemma FuzzyScan_result_well_formed_witness :
  exists r,
    Advanced.FuzzyScan (Pattern_of_string LLP64 "DE AD BE EF")
      (Some [222; 173; 190; 170]) 4 (S754_finite false 13421773 (-24)) 0
    = Some r
    /\ (r = Advanced.mkFuzzyResult 0 0 (S754_zero false) false
        \/ (Advanced.fz_found r = true
            /\ 0 <= Advanced.fz_offset r
               <= 4 - Size (Pattern_of_string LLP64 "DE AD BE EF")
            /\ Advanced.similarity_at (Pattern_of_string LLP64 "DE AD BE EF")
                 [222; 173; 190; 170] (Advanced.fz_offset r)
               = Some (Some (Advanced.similarity r))
            /\ Advanced.fz_address r = wrap64 (0 + Advanced.fz_offset r)
            /\ (Advanced.f32_le (S754_finite false 13421773 (-24))
                  (Advanced.similarity r) = true
                \/ Advanced.f32_lt Advanced.f32_zero (Advanced.similarity r) = true))).
Proof.
  apply (FuzzyScan_result_well_formed (Pattern_of_string LLP64 "DE AD BE EF")
           [222; 173; 190; 170] 4 (S754_finite false 13421773 (-24)) 0).
  - reflexivity.
  - cbn. lia.
  - vm_compute. discriminate.
Defined.

(** X16. First good enough, not best of all: when the threshold passes the
    range check and [k] is the first viable offset whose similarity reaches
    it, [FuzzyScan] returns at [k] with that similarity, whatever the later
    offsets hold. *)
Theorem FuzzyScan_first_reaching_offset
    (p : Pattern) (d : list Z) (size : Z) (threshold : Advanced.f32)
    (baseAddress k : Z) (s : Advanced.f32) :
  IsValid p = true ->
  readable (Some d) size ->
  Advanced.f32_lt threshold Advanced.f32_zero = false ->
  Advanced.f32_lt Advanced.f32_one threshold = false ->
  0 <= k <= size - Size p ->
  Advanced.similarity_at p d k = Some (Some s) ->
  Advanced.f32_le threshold s = true ->
  (forall k' s', 0 <= k' < k ->
                 Advanced.similarity_at p d k' = Some (Some s') ->
                 Advanced.f32_le threshold s' = false) ->
  Advanced.FuzzyScan p (Some d) size threshold baseAddress
  = Some (Advanced.mkFuzzyResult (wrap64 (baseAddress + k)) k s true).
Proof.
  intros Hv Hread Hlo Hhi Hk Hsim Hreach Hbefore. cbn in Hread.
  destruct (IsValid_true p Hv) as [Hm Hmask].
  unfold Advanced.FuzzyScan. rewrite Hv, Hlo, Hhi. cbn [negb].
  destruct (Z.ltb_spec size (Size p)); [lia |]. cbn [orb].
  apply (FuzzyScan_loop_first_reaching p d threshold size baseAddress Hmask Hread
           k s Hsim Hreach); try lia.
  exact Hbefore.
Qed.

Lemma FuzzyScan_first_reaching_offset_witness :
  Advanced.FuzzyScan (Pattern_of_string LLP64 "DE AD BE EF")
    (Some [0; 222; 173; 190; 170; 222; 173; 190; 239]) 9
    (S754_finite false 12582912 (-24)) 4096
  = Some (Advanced.mkFuzzyResult (wrap64 (4096 + 1)) 1
            (S754_finite false 12582912 (-24)) true).
Proof.
  apply (FuzzyScan_first_reaching_offset (Pattern_of_string LLP64 "DE AD BE EF")
           [0; 222; 173; 190; 170; 222; 173; 190; 239] 9
           (S754_finite false 12582912 (-24)) 4096 1
           (S754_finite false 12582912 (-24))).
  - reflexivity.
  - cbn. lia.
  - reflexivity.
  - reflexivity.
  - vm_compute. split; discriminate.
  - reflexivity.
  - reflexivity.
  - intros k' s' Hk' Hs'. assert (k' = 0) as -> by lia.
    vm_compute in Hs'. injection Hs' as <-. reflexivity.
Defined.

(** ** AnalyzeMemory on a buffer *)

Lemma In_firstn_S {A : Type} (v : list A) (n : nat) (x : A) :
  In x (firstn n v) -> In x (firstn (S n) v).
Proof.
  revert n. induction v as [| h t IH]; intros [| n] Hx; cbn in *; try contradiction.
  destruct Hx as [-> | Hx]; [left; reflexivity | right; apply IH; exact Hx].
Qed.

Lemma In_firstn_nth {A : Type} (v : list A) (n : nat) (dflt : A) :
  (n < length v)%nat -> In (nth n v dflt) (firstn (S n) v).
Proof.
  revert n. induction v as [| h t IH]; intros [| n] Hn; cbn in *; try lia.
  - left. reflexivity.
  - right. apply IH. lia.
Qed.

Lemma In_firstn_In {A : Type} (v : list A) (n : nat) (x : A) :
  In x (firstn n v) -> In x v.
Proof.
  revert n. induction v as [| h t IH]; intros [| n] Hx; cbn in *; try contradiction.
  destruct Hx as [-> | Hx]; [left; reflexivity | right; apply (IH n); exact Hx].
Qed.

Section AnalyzeMemoryFacts.

Variable d : list Z.
Hypothesis Hbuffer : Forall is_byte d.

(** Every byte counted so far occurs among the bytes read so far. *)
Lemma count_frequencies_present :
  forall (n : nat) (i : Z) (byteFreq : list Z),
    0 <= i -> i + Z.of_nat n <= Z.of_nat (length d) ->
    length byteFreq = 256%nat ->
    (forall c, 0 <= c -> 0 < nth (Z.to_nat c) byteFreq 0 ->
               In c (firstn (Z.to_nat i) d)) ->
    exists byteFreq',
      Advanced.count_frequencies n d i byteFreq = Some byteFreq'
      /\ length byteFreq' = 256%nat
      /\ (forall c, 0 <= c -> 0 < nth (Z.to_nat c) byteFreq' 0 ->
                    In c (firstn (Z.to_nat (i + Z.of_nat n)) d)).
Proof.
  induction n as [| n IH]; intros i byteFreq Hi Hn Hlen Hinv.
  - exists byteFreq. split; [reflexivity |]. split; [exact Hlen |].
    intros c Hc0 Hc. rewrite Z.add_0_r. apply Hinv; assumption.
  - cbn [Advanced.count_frequencies].
    rewrite (at_index_nth d i 0) by lia.
    set (b := nth (Z.to_nat i) d 0).
    assert (Hb : is_byte b).
    { rewrite Forall_forall in Hbuffer. apply Hbuffer. apply nth_In. lia. }
    unfold is_byte in Hb.
    rewrite (at_index_nth byteFreq b 0) by lia.
    unfold set_index.
    destruct (Z.leb_spec 0 b); [| lia].
    destruct (Z.ltb_spec b (Z.of_nat (length byteFreq))); [| lia].
    cbn [andb].
    destruct (IH (i + 1)
                (list_set byteFreq (Z.to_nat b) (nth (Z.to_nat b) byteFreq 0 + 1)))
      as [out [Hrun [Hlen' Hpresent]]].
    + lia.
    + lia.
    + rewrite length_list_set. exact Hlen.
    + intros c Hc0 Hc.
      replace (Z.to_nat (i + 1)) with (S (Z.to_nat i)) by lia.
      destruct (Z.eq_dec c b) as [-> | Hne].
      * apply In_firstn_nth. lia.
      * apply In_firstn_S. apply Hinv; [exact Hc0 |].
        rewrite nth_list_set_other in Hc by lia. exact Hc.
    + exists out. split; [exact Hrun |]. split; [exact Hlen' |].
      intros c Hc0 Hc.
      replace (i + Z.of_nat (S n)) with (i + 1 + Z.of_nat n) by lia.
      apply Hpresent; assumption.
Qed.

End AnalyzeMemoryFacts.

Lemma collect_present_spec (byteFreq : list Z) :
  length byteFreq = 256%nat ->
  forall (n : nat) (i : Z) (acc : list (Z * Z)),
    0 <= i -> i + Z.of_nat n <= 256 ->
    exists out,
      Advanced.collect_present n byteFreq i acc = Some out
      /\ forall c f, In (c, f) out ->
           In (c, f) acc \/ (0 <= c /\ 0 < nth (Z.to_nat c) byteFreq 0).
Proof.
  intros Hlen.
  induction n as [| n IH]; intros i acc Hi Hn.
  - exists acc. split; [reflexivity |]. intros c f Hin. left. exact Hin.
  - cbn [Advanced.collect_present].
    rewrite (at_index_nth byteFreq i 0) by lia.
    destruct (IH (i + 1)
                (if nth (Z.to_nat i) byteFreq 0 >? 0
                 then acc ++ [(i mod 256, nth (Z.to_nat i) byteFreq 0)]
                 else acc)) as [out [Hrun Hout]]; [lia | lia |].
    exists out. split; [exact Hrun |].
    intros c f Hin. destruct (Hout c f Hin) as [Hacc | Hnew]; [| right; exact Hnew].
    destruct (Z.gtb_spec (nth (Z.to_nat i) byteFreq 0) 0) as [Hpos | _];
      [| left; exact Hacc].
    apply in_app_or in Hacc. destruct Hacc as [Hacc | [Heq | []]]; [left; exact Hacc |].
    right. injection Heq as <- <-. rewrite Z.mod_small by lia. split; [lia | exact Hpos].
Qed.

(** X17. On a buffer of at least [size] bytes [AnalyzeMemory] never leaves
    the buffer or its histogram, whatever [std::log2] computes and however
    [std::sort] orders its input, as long as the sort returns elements of its
    input only.  The statistics report [totalSize = size], at most ten most
    common bytes, each of which occurs among the first [size] bytes of the
    buffer, and leave [executableSize], [writableSize] and [commonPatterns]
    at zero. *)
Theorem AnalyzeMemory_on_buffer
    (log2 : Advanced.f64 -> Advanced.f64)
    (sort_by_count : list (Z * Z) -> list (Z * Z))
    (d : list Z) (size : Z) :
  (forall l x, In x (sort_by_count l) -> In x l) ->
  Forall is_byte d ->
  readable (Some d) size ->
  exists r,
    Advanced.AnalyzeMemory log2 sort_by_count (Some d) size = Some r
    /\ Advanced.totalSize r = size
    /\ (length (Advanced.mostCommonBytes r) <= 10)%nat
    /\ (forall b, In b (Advanced.mostCommonBytes r) ->
                  In b (firstn (Z.to_nat size) d))
    /\ Advanced.executableSize r = 0
    /\ Advanced.writableSize r = 0
    /\ Advanced.commonPatterns r = [].
Proof.
  intros Hsort Hbuffer Hread. cbn in Hread.
  unfold Advanced.AnalyzeMemory.
  destruct (Z.eqb_spec size 0) as [-> | Hnz].
  - eexists. split; [reflexivity |]. cbn.
    repeat split; try lia; try (intros b Hb; destruct Hb).
  - destruct (count_frequencies_present d Hbuffer (Z.to_nat size) 0 (repeat 0 256))
      as [byteFreq [Hcount [Hlen Hpresent]]].
    + lia.
    + lia.
    + apply repeat_length.
    + intros c Hc0 Hc. exfalso.
      destruct (Z.lt_ge_cases c 256).
      * rewrite nth_repeat_lt in Hc by lia. lia.
      * rewrite nth_overflow in Hc by (rewrite repeat_length; lia). lia.
    + rewrite Hcount.
      destruct (collect_present_spec byteFreq Hlen 256 0 []) as [present [Hcol Hin]];
        [lia | lia |].
      rewrite Hcol. eexists. split; [reflexivity |]. cbn.
      split; [reflexivity |]. split.
      * rewrite length_map, length_firstn.
        destruct (Nat.leb_spec (length (sort_by_count present)) 9); lia.
      * split; [| repeat split].
        intros b Hb. apply in_map_iff in Hb. destruct Hb as [[c f] [Hfst Hcf]].
        cbn in Hfst. subst c.
        apply In_firstn_In in Hcf. apply Hsort in Hcf.
        destruct (Hin b f Hcf) as [[] | [Hb0 Hpos]].
        specialize (Hpresent b Hb0 Hpos).
        destruct (Z.le_gt_cases 0 size).
        -- replace (0 + Z.of_nat (Z.to_nat size)) with size in Hpresent by lia.
           exact Hpresent.
        -- replace (Z.to_nat (0 + Z.of_nat (Z.to_nat size))) with (Z.to_nat size)
             in Hpresent by lia.
           exact Hpresent.
Qed.

Lemma AnalyzeMemory_on_buffer_witness :
  exists r,
    Advanced.AnalyzeMemory (fun x => x) (fun l => l) (Some [144; 144; 195; 0]) 3
    = Some r
    /\ Advanced.totalSize r = 3
    /\ (length (Advanced.mostCommonBytes r) <= 10)%nat
    /\ (forall b, In b (Advanced.mostCommonBytes r) ->
                  In b (firstn (Z.to_nat 3) [144; 144; 195; 0]))
    /\ Advanced.executableSize r = 0
    /\ Advanced.writableSize r = 0
    /\ Advanced.commonPatterns r = [].
Proof.
  apply (AnalyzeMemory_on_buffer (fun x => x) (fun l => l) [144; 144; 195; 0] 3).
  - intros l x Hx. exact Hx.
  - unfold is_byte. repeat (constructor; [lia |]). constructor.
  - cbn. lia.
Defined.

(** ** FastScan on its own *)

Lemma masked_match_exact (bs d : list Z) (i : Z) :
  masked_match (mkPattern bs (repeat true (length bs))) d i <-> occurs_at bs d i.
Proof.
  unfold masked_match, occurs_at, Size. cbn [bytes mask]. split; intros H j Hj.
  - apply H; [exact Hj |]. apply nth_repeat_lt. lia.
  - intros _. apply H. exact Hj.
Qed.

(** X18. For a non-empty byte sequence and a buffer of at least [size] bytes,
    [size >= bytes.size()], [SIMDScanner::FastScan] returns the smallest
    offset of [[0, size - bytes.size()]] at which the bytes stand in the
    buffer, with address [baseAddress + offset], and the not-found result
    when they stand nowhere. *)
Theorem FastScan_first_occurrence
    (bs d : list Z) (size baseAddress : Z) :
  bs <> [] ->
  readable (Some d) size ->
  Z.of_nat (length bs) <= size ->
  (exists k,
      0 <= k <= size - Z.of_nat (length bs)
      /\ occurs_at bs d k
      /\ (forall k', 0 <= k' < k -> ~ occurs_at bs d k')
      /\ SIMDScanner.FastScan bs (Some d) size baseAddress
         = Some (mkScanResult (wrap64 (baseAddress + k)) k true))
  \/ ((forall k, 0 <= k <= size - Z.of_nat (length bs) -> ~ occurs_at bs d k)
      /\ SIMDScanner.FastScan bs (Some d) size baseAddress
         = Some (mkScanResult 0 0 false)).
Proof.
  intros Hne Hread Hfit. cbn in Hread.
  unfold SIMDScanner.FastScan.
  destruct (Nat.eqb_spec (length bs) 0) as [H0 | _];
    [destruct bs; [congruence | discriminate H0] |].
  destruct (Z.ltb_spec size (Z.of_nat (length bs))); [lia |].
  rewrite <- FastScan_loop_Scan_loop.
  destruct (SimpleScan_loop_spec (mkPattern bs (repeat true (length bs))) d
              (repeat_length true (length bs)) size baseAddress Hread
              (Z.to_nat (size - Z.of_nat (length bs) + 1)) 0)
    as [[k [Hk [Hmk [Hmin Hres]]]] | [Hnone Hres]].
  - lia.
  - unfold Size. cbn [bytes]. lia.
  - left. exists k. unfold Size in Hk. cbn [bytes] in Hk.
    split; [lia |]. split; [apply masked_match_exact; exact Hmk |].
    split; [| exact Hres].
    intros k' Hk' Hocc. apply (Hmin k'); [lia |].
    apply masked_match_exact. exact Hocc.
  - right. split; [| exact Hres].
    intros k Hk Hocc. apply (Hnone k); [unfold Size; cbn [bytes]; lia |].
    apply masked_match_exact. exact Hocc.
Qed.

Lemma FastScan_first_occurrence_witness :
  (exists k,
      0 <= k <= 29 - Z.of_nat (length [72; 139; 5])
      /\ occurs_at [72; 139; 5] demo_buffer k
      /\ (forall k', 0 <= k' < k -> ~ occurs_at [72; 139; 5] demo_buffer k')
      /\ SIMDScanner.FastScan [72; 139; 5] (Some demo_buffer) 29 5368713216
         = Some (mkScanResult (wrap64 (5368713216 + k)) k true))
  \/ ((forall k, 0 <= k <= 29 - Z.of_nat (length [72; 139; 5]) ->
                 ~ occurs_at [72; 139; 5] demo_buffer k)
      /\ SIMDScanner.FastScan [72; 139; 5] (Some demo_buffer) 29 5368713216
         = Some (mkScanResult 0 0 false)).
Proof.
  apply (FastScan_first_occurrence [72; 139; 5] demo_buffer 29 5368713216).
  - discriminate.
  - cbn. lia.
  - cbn. lia.
Defined.

(** ** The good-suffix table as built *)


